(** * keras-rcnn: the RPN anchor-target layer

    A shallow embedding of
    [keras_rcnn/layers/object_detection/_anchor_target.py]: the label
    assigner ([label], [overlapping]), the balance sampler ([balance],
    [subsample_positive_labels], [subsample_negative_labels]), the border
    filter ([inside_image]) and the layer entry point ([AnchorTarget.call]).

    Conventions of the embedding.
    - Float tensors hold rationals ([Q]): the file only compares overlaps with
      thresholds and coordinates with borders.  Label tensors hold the floats
      -1, 0 and 1 and are only negated and added, so they are integers ([Z]).
    - A tensor is its shape and its row-major buffer.
    - A fallible operation returns a [result]; the errors are the exceptions
      the Python code and the tensor primitives raise.
    - The random shuffle threads an explicit generator state. *)

From Stdlib Require Import List ZArith QArith Qminmax Bool Lia Permutation Arith.
Import ListNotations.
Close Scope Q_scope.

(** ** Module-level constants *)

Definition RPN_FG_FRACTION : Q := (1 # 2)%Q.
Definition RPN_BATCHSIZE : Z := 256%Z.

(** ** Errors and the result type *)

Inductive error : Type :=
| AssertionError      (* a Python [assert] failed (the statement carries no message) *)
| SliceError          (* a slice names an axis the tensor does not have *)
| EmptyReduction      (* argmax along an axis of size 0 *)
| IndexOutOfRange     (* an index outside the indexed axis *)
| ShapeMismatch.      (* operand shapes of an element-wise operation disagree *)

Inductive result (A : Type) : Type :=
| OK (a : A)
| Error (e : error).

Arguments OK {A} a.
Arguments Error {A} e.

(** Whether the exception carries a message.  An [assert] written without a
    message expression raises an AssertionError that has none; the errors
    raised by slicing and by the tensor primitives carry the library's
    description of the failure. *)
Definition has_message (e : error) : bool :=
  match e with
  | AssertionError => false
  | SliceError | EmptyReduction | IndexOutOfRange | ShapeMismatch => true
  end.

Definition bind {A B : Type} (r : result A) (k : A -> result B) : result B :=
  match r with
  | OK a => k a
  | Error e => Error e
  end.

Notation "x <- r ;; k" := (bind r (fun x => k))
  (at level 61, r at next level, right associativity).
Notation "' pat <- r ;; k" := (bind r (fun x => match x with pat => k end))
  (at level 61, pat pattern, r at next level, right associativity).

(** [assert cond] *)
Definition assert (cond : bool) : result unit :=
  if cond then OK tt else Error AssertionError.

(** ** Tensors *)

Record tensor (A : Type) : Type := mkTensor { shape : list nat; data : list A }.

Arguments mkTensor {A} shape data.
Arguments shape {A} t.
Arguments data {A} t.

(** [keras.backend.ndim] *)
Definition ndim {A : Type} (t : tensor A) : nat := length (shape t).

(** Size of axis [k] (0 when the tensor has no such axis). *)
Definition dim {A : Type} (t : tensor A) (k : nat) : nat := nth k (shape t) 0.

(** [n] consecutive rows of width [w] cut from a row-major buffer. *)
Fixpoint chunk {A : Type} (w n : nat) (l : list A) : list (list A) :=
  match n with
  | O => []
  | S n' => firstn w l :: chunk w n' (skipn w l)
  end.

(** The rows of a 2-D tensor. *)
Definition rows {A : Type} (t : tensor A) : list (list A) :=
  chunk (dim t 1) (dim t 0) (data t).

(** [keras.backend.shape(x)[k]] *)
Definition shape_at (s : list nat) (k : nat) : result nat :=
  match nth_error s k with
  | Some n => OK n
  | None => Error SliceError
  end.

(** [t[0]]: the first entry along the leading axis. *)
Definition index0 {A : Type} (t : tensor A) : result (tensor A) :=
  match shape t with
  | [] => Error SliceError
  | O :: _ => Error IndexOutOfRange
  | S _ :: s => OK (mkTensor s (firstn (fold_right Nat.mul 1 s) (data t)))
  end.

(** [v[k]] on a vector *)
Definition item {A : Type} (v : list A) (k : nat) : result A :=
  match nth_error v k with
  | Some x => OK x
  | None => Error IndexOutOfRange
  end.

(** [boxes[:, j]] on a 2-D tensor *)
Definition column (boxes : tensor Q) (j : nat) : result (list Q) :=
  if ndim boxes <? 2 then Error SliceError
  else if dim boxes 1 <=? j then Error IndexOutOfRange
  else OK (map (fun r => nth j r 0%Q) (rows boxes)).

(** [keras.backend.expand_dims(t, axis=0)] *)
Definition expand_dims0 {A : Type} (t : tensor A) : tensor A :=
  mkTensor (1 :: shape t) (data t).

(** [keras.backend.reshape(t, (-1, 4))] *)
Definition reshape_rows4 {A : Type} (t : tensor A) : result (tensor A) :=
  if length (data t) mod 4 =? 0
  then OK (mkTensor [length (data t) / 4; 4] (data t))
  else Error ShapeMismatch.

(** ** Comparisons on floats, element-wise *)

(** [keras.backend.less] *)
Definition less (a b : Q) : bool := negb (Qle_bool b a).

(** [keras.backend.greater_equal] *)
Definition greater_equal (a b : Q) : bool := Qle_bool b a.

(** ** Tensor primitives *)

(** Index of the first maximum of a non-empty vector: the running best is
    replaced only by a strictly larger entry. *)
Fixpoint argmax_from (i best : nat) (bv : Q) (l : list Q) : nat :=
  match l with
  | [] => best
  | x :: l' =>
      if less bv x then argmax_from (S i) i x l'
      else argmax_from (S i) best bv l'
  end.

Definition argmax_list (l : list Q) : nat :=
  match l with
  | [] => 0
  | x :: l' => argmax_from 1 0 x l'
  end.

(** An [nrows] x [ncols] float matrix, held by rows. *)
Record matrix : Type := mkMatrix { nrows : nat; ncols : nat; entries : list (list Q) }.

Definition matrix_column (m : matrix) (j : nat) : list Q :=
  map (fun r => nth j r 0%Q) (entries m).

(** [keras.backend.argmax(m, axis=0)]: for each column, the row of its first
    maximum.  Reducing an axis of size 0 is an error of the primitive. *)
Definition argmax_axis0 (m : matrix) : result (list nat) :=
  if nrows m =? 0 then Error EmptyReduction
  else OK (map (fun j => argmax_list (matrix_column m j)) (seq 0 (ncols m))).

(** [keras.backend.argmax(m, axis=1)]: for each row, the column of its first
    maximum. *)
Definition argmax_axis1 (m : matrix) : result (list nat) :=
  if ncols m =? 0 then Error EmptyReduction
  else OK (map argmax_list (entries m)).

(** [keras.backend.gather(ref, indices)] along the leading axis. *)
Fixpoint gather {A : Type} (ref : list A) (indices : list nat) : result (list A) :=
  match indices with
  | [] => OK []
  | i :: indices' =>
      match nth_error ref i with
      | Some x => xs <- gather ref indices' ;; OK (x :: xs)
      | None => Error IndexOutOfRange
      end
  end.

(** Modelled from the spec: [keras_rcnn.backend.gather_nd] is not among the
    sources; section 1 names gather among the tensor primitives.  One
    (row, column) pair per output entry; a pair outside the matrix is an
    error. *)
Fixpoint gather_nd (m : list (list Q)) (indices : list (nat * nat)) : result (list Q) :=
  match indices with
  | [] => OK []
  | (i, j) :: indices' =>
      match nth_error m i with
      | Some r =>
          match nth_error r j with
          | Some x => xs <- gather_nd m indices' ;; OK (x :: xs)
          | None => Error IndexOutOfRange
          end
      | None => Error IndexOutOfRange
      end
  end.

(** [ref[i] = x] *)
Fixpoint set_nth {A : Type} (i : nat) (x : A) (ref : list A) : list A :=
  match ref, i with
  | [], _ => []
  | _ :: ref', O => x :: ref'
  | y :: ref', S i' => y :: set_nth i' x ref'
  end.

(** Modelled from the spec: [keras_rcnn.backend.scatter_add_tensor] is not
    among the sources; sections 1 and 9 name the scatter-add used for label
    assignment and subsampling.  [ref[indices[k]] += updates[k]] for every
    [k]; an index that occurs twice receives both updates. *)
Fixpoint scatter_add_tensor (ref : list Z) (indices : list nat) (updates : list Z)
  : result (list Z) :=
  match indices, updates with
  | [], [] => OK ref
  | i :: indices', u :: updates' =>
      match nth_error ref i with
      | Some x => scatter_add_tensor (set_nth i (x + u)%Z ref) indices' updates'
      | None => Error IndexOutOfRange
      end
  | _, _ => Error ShapeMismatch
  end.

(** Modelled from the spec: [keras_rcnn.backend.unique] is not among the
    sources; section 1 names unique among the tensor primitives.  The distinct
    entries of [x], in order of first occurrence. *)
Fixpoint unique (x : list nat) : list nat :=
  match x with
  | [] => []
  | i :: x' => i :: filter (fun j => negb (j =? i)) (unique x')
  end.

(** Modelled from the spec: [keras_rcnn.backend.where] is not among the
    sources; sections 4.2 and 4.4 use it to set the labels that meet a
    condition.  [where(condition, x, y)]: entries of [x] where the condition
    holds, of [y] elsewhere; the three operands have one length. *)
Definition where3 {A : Type} (condition : list bool) (x y : list A) : result (list A) :=
  if (length condition =? length x) && (length condition =? length y)
  then OK (map (fun p : bool * (A * A) => if fst p then fst (snd p) else snd (snd p))
               (combine condition (combine x y)))
  else Error ShapeMismatch.

(** [where(equal(labels, v))], the one-argument form of the same helper: the
    positions holding [v], ascending (section 4.3: the indices currently
    labelled [v]). *)
Definition where_equal (labels : list Z) (v : Z) : list nat :=
  filter (fun i => (nth i labels 0%Z =? v)%Z) (seq 0 (length labels)).

(** A label is one of -1 (ignore), 0 (background), 1 (foreground). *)
Definition ternary (z : Z) : Prop := z = (-1)%Z \/ z = 0%Z \/ z = 1%Z.

(** The number of labels equal to [v], counted as the code counts them:
    [shape(where(equal(labels, v)))[0]]. *)
Definition count (v : Z) (labels : list Z) : nat := length (where_equal labels v).

(** [a + b] on vectors, with broadcasting of a length-1 operand. *)
Definition add (a b : list Z) : result (list Z) :=
  if length a =? length b then OK (map (fun p : Z * Z => (fst p + snd p)%Z) (combine a b))
  else if length a =? 1 then OK (map (fun y => (hd 0%Z a + y)%Z) b)
  else if length b =? 1 then OK (map (fun x => (x + hd 0%Z b)%Z) a)
  else Error ShapeMismatch.

(** [int(q)]: truncation towards zero. *)
Definition int (q : Q) : Z := Z.quot (Qnum q) (Z.pos (Qden q)).

(** ** Boxes *)

Record box : Type := mkBox { x1 : Q; y1 : Q; x2 : Q; y2 : Q }.

Definition box_row (b : box) : list Q := [x1 b; y1 b; x2 b; y2 b].

(** An (N, 4) tensor from N boxes. *)
Definition boxes_tensor (bs : list box) : tensor Q :=
  mkTensor [length bs; 4] (flat_map box_row bs).

(** A shuffle to run the layer with: reversal is one of the permutations a
    random shuffle can return; the generator state counts the draws. *)
Definition shuffle_rev (l : list nat) (g : nat) : list nat * nat := (rev l, S g).

(** Modelled from the spec: [keras_rcnn.backend.overlap] is not among the
    sources.  Section 4.1: IoU(a,g) = area(a∩g) / (area(a)+area(g)-area(a∩g)),
    and 0 if the boxes do not intersect or either has non-positive area; widths
    and heights are x2-x1 and y2-y1. *)
Definition iou_spec (a g : list Q) : Q :=
  let ax1 := nth 0 a 0%Q in let ay1 := nth 1 a 0%Q in
  let ax2 := nth 2 a 0%Q in let ay2 := nth 3 a 0%Q in
  let gx1 := nth 0 g 0%Q in let gy1 := nth 1 g 0%Q in
  let gx2 := nth 2 g 0%Q in let gy2 := nth 3 g 0%Q in
  let iw := (Qmin ax2 gx2 - Qmax ax1 gx1)%Q in
  let ih := (Qmin ay2 gy2 - Qmax ay1 gy1)%Q in
  let area_a := ((ax2 - ax1) * (ay2 - ay1))%Q in
  let area_g := ((gx2 - gx1) * (gy2 - gy1))%Q in
  if less 0%Q iw && less 0%Q ih && less 0%Q area_a && less 0%Q area_g
  then ((iw * ih) / (area_a + area_g - iw * ih))%Q
  else 0%Q.

(** ** The collaborators of the layer *)

(** The overlap of an anchor row with a ground-truth row. *)
Definition overlap_function : Type := list Q -> list Q -> Q.

(** The anchors generated over a grid of (rows, columns) at a stride. *)
Definition anchor_generator : Type := nat * nat -> Z -> list box.

(** The four regression deltas of an anchor row against a ground-truth row. *)
Definition delta_encoder : Type := list Q -> list Q -> box.

(** A random shuffle: the shuffled list and the generator state after it. *)
Definition shuffle_function (rng : Type) : Type := list nat -> rng -> list nat * rng.

(** ** Inputs to run the layer on *)

Definition qbox (a b c d : Z) : box :=
  mkBox (inject_Z a) (inject_Z b) (inject_Z c) (inject_Z d).

(** The anchors of a 2 x 2 grid at stride 16 with one 16 x 16 anchor per cell
    (the scenario of section 8 of the specification). *)
Definition grid_2x2 : list box :=
  [qbox 0 0 16 16; qbox 16 0 32 16; qbox 0 16 16 32; qbox 16 16 32 32].

Definition shift_2x2 (grid : nat * nat) (stride : Z) : list box := grid_2x2.

(** A crowded anchor set: thirty anchors that start one pixel left of the
    image, then a hundred anchors on the first cell. *)
Definition crowded_anchors : list box :=
  repeat (qbox (-1) 0 16 16) 30 ++ repeat (qbox 0 0 16 16) 100.

Definition shift_crowded (grid : nat * nat) (stride : Z) : list box := crowded_anchors.

(** An encoder to run the layer with: the corner offsets of the matched box. *)
Definition corner_offsets (a g : list Q) : box :=
  mkBox (nth 0 g 0 - nth 0 a 0)%Q (nth 1 g 0 - nth 1 a 0)%Q
        (nth 2 g 0 - nth 2 a 0)%Q (nth 3 g 0 - nth 3 a 0)%Q.

(** A batch holding one image with the given ground-truth boxes. *)
Definition gt_batch (bs : list box) : tensor Q :=
  mkTensor [1; length bs; 4] (flat_map box_row bs).

(** The metadata of one 32 x 32 image at scale 1. *)
Definition metadata_32 : list (list Q) := [[32; 32; 1]%Q].

(** ** The layer *)

(** The configuration held by an [AnchorTarget] instance ([__init__]). *)
Record AnchorTarget : Type := mkAnchorTarget {
  allowed_border : Q;
  clobber_positives : bool;
  negative_overlap : Q;
  positive_overlap : Q;
  stride : Z
}.

Definition with_allowed_border (self : AnchorTarget) (b : Q) : AnchorTarget :=
  mkAnchorTarget b (clobber_positives self) (negative_overlap self)
    (positive_overlap self) (stride self).

(** The keyword defaults of [__init__]. *)
Definition AnchorTarget_default : AnchorTarget :=
  mkAnchorTarget 0%Q false (3 # 10)%Q (7 # 10)%Q 16%Z.

(** [compute_output_shape]: the shapes the layer declares for its two
    outputs, [None] for a size that is not fixed.  The input shape is not
    read. *)
Definition compute_output_shape (input_shape : list (list (option nat)))
  : list (list (option nat)) :=
  [[None; None]; [None; None; Some 4]].

(** [compute_mask]: [2 * [None]], no mask for either output. *)
Definition compute_mask (inputs : list (list nat)) (mask : option (list bool))
  : list (option (list bool)) :=
  concat (repeat [None] 2).

(** A shape agrees with a declared shape: the same rank, and the declared
    size on every axis whose size is fixed. *)
Definition shape_instance (actual : list nat) (declared : list (option nat)) : bool :=
  (length actual =? length declared) &&
  forallb (fun p : nat * option nat =>
             match snd p with
             | None => true
             | Some d => fst p =? d
             end)
          (combine actual declared).

(** The box held by the first four entries of a row. *)
Definition row_box (r : list Q) : box :=
  mkBox (nth 0 r 0%Q) (nth 1 r 0%Q) (nth 2 r 0%Q) (nth 3 r 0%Q).

Section Layer.

(** Collaborators from [keras_rcnn.backend] that are not among the sources,
    taken as parameters.
    - [iou a g]: the entry of [overlap] for anchor row [a] and ground-truth
      row [g];
    - [shift (rr, cc) stride]: the anchors generated over an [rr] x [cc] grid,
      an (N, 4) array;
    - [bbox_delta a g]: the four regression deltas [bbox_transform] computes
      for anchor row [a] against ground-truth row [g];
    - [shuffle l g]: a random shuffle of [l] drawn with generator state [g],
      and the state after the draw. *)
Variable iou : overlap_function.
Variable shift : anchor_generator.
Variable bbox_delta : delta_encoder.
Variable rng : Type.
Variable shuffle : shuffle_function rng.

(** A shuffle returns its argument in some order. *)
Hypothesis shuffle_perm : forall (l : list nat) (g : rng), Permutation l (fst (shuffle l g)).

(** [keras_rcnn.backend.overlap(a, b)]: the matrix of pairwise overlaps, one row
    per box of [a] and one column per box of [b]. *)
Definition overlap (a b : tensor Q) : matrix :=
  mkMatrix (dim a 0) (dim b 0) (map (fun r => map (iou r) (rows b)) (rows a)).

(** The overlap of anchor [i] with ground-truth box [j]. *)
Definition overlap_at (a b : tensor Q) (i j : nat) : Q :=
  nth j (nth i (entries (overlap a b)) []) 0%Q.

(** [keras_rcnn.backend.bbox_transform(anchors, gt_boxes)], row by row. *)
Definition bbox_transform (anchors : tensor Q) (gt_rows : list (list Q)) : tensor Q :=
  let deltas := map (fun p => bbox_delta (fst p) (snd p)) (combine (rows anchors) gt_rows) in
  mkTensor [length deltas; 4] (flat_map box_row deltas).

(** *** [overlapping] *)

Definition overlapping (anchors gt_boxes : tensor Q)
  : result (list nat * list Q * list nat) :=
  _ <- assert (ndim anchors =? 2) ;;
  _ <- assert (ndim gt_boxes =? 2) ;;
  let reference := overlap anchors gt_boxes in
  gt_argmax_overlaps_inds <- argmax_axis0 reference ;;
  argmax_overlaps_inds <- argmax_axis1 reference ;;
  let arranged := seq 0 (dim anchors 0) in
  let indices := combine arranged argmax_overlaps_inds in
  max_overlaps <- gather_nd (entries reference) indices ;;
  OK (argmax_overlaps_inds, max_overlaps, gt_argmax_overlaps_inds).

(** *** [subsample_positive_labels], [subsample_negative_labels], [balance] *)

Definition subsample_positive_labels (labels : list Z) (g : rng)
  : result (list Z * rng) :=
  let num_fg := int (RPN_FG_FRACTION * inject_Z RPN_BATCHSIZE)%Q in
  let fg_inds := where_equal labels 1 in
  let num_fg_inds := Z.of_nat (length fg_inds) in
  let size := (num_fg_inds - num_fg)%Z in
  if (size <=? 0)%Z then OK (labels, g)
  else
    (* more_positive *)
    let (shuffled, g') := shuffle fg_inds g in
    let indices := firstn (Z.to_nat size) shuffled in
    let updates := map (fun o => (o * -1)%Z) (repeat 1%Z (Z.to_nat size)) in
    gathered <- gather labels indices ;;
    let inverse_labels := map (fun x => (x * -1)%Z) gathered in
    upd <- add inverse_labels updates ;;
    labels' <- scatter_add_tensor labels indices upd ;;
    OK (labels', g').

Definition subsample_negative_labels (labels : list Z) (g : rng)
  : result (list Z * rng) :=
  let num_bg := (RPN_BATCHSIZE - Z.of_nat (length (where_equal labels 1)))%Z in
  let bg_inds := where_equal labels 0 in
  let num_bg_inds := Z.of_nat (length bg_inds) in
  let size := (num_bg_inds - num_bg)%Z in
  if (size <=? 0)%Z then OK (labels, g)
  else
    (* more_negative *)
    let (shuffled, g') := shuffle bg_inds g in
    let indices := firstn (Z.to_nat size) shuffled in
    let updates := map (fun o => (o * -1)%Z) (repeat 1%Z (Z.to_nat size)) in
    gathered <- gather labels indices ;;
    let inverse_labels := map (fun x => (x * -1)%Z) gathered in
    upd <- add inverse_labels updates ;;
    labels' <- scatter_add_tensor labels indices upd ;;
    OK (labels', g').

Definition balance (labels : list Z) (g : rng) : result (list Z * rng) :=
  '(labels, g) <- subsample_positive_labels labels g ;;
  subsample_negative_labels labels g.

(** *** [label] *)

(** The background rule (lines 120 and 137):
    [where(less(max_overlaps, RPN_NEGATIVE_OVERLAP), zeros, labels)]. *)
Definition assign_background (max_overlaps : list Q) (RPN_NEGATIVE_OVERLAP : Q)
  (zeros labels : list Z) : result (list Z) :=
  where3 (map (fun o => less o RPN_NEGATIVE_OVERLAP) max_overlaps) zeros labels.

(** The force-positive pass (lines 125-131): the anchors of highest overlap of
    the ground-truth boxes, made unique, receive [-label + 1] by scatter-add. *)
Definition force_positive (gt_argmax_overlaps_inds : list nat) (labels : list Z)
  : result (list Z) :=
  let unique_indices := unique gt_argmax_overlaps_inds in
  inverse_labels <- gather (map (fun x => (-1 * x)%Z) labels) unique_indices ;;
  let updates := map (fun _ => 1%Z) unique_indices in
  upd <- add inverse_labels updates ;;
  scatter_add_tensor labels unique_indices upd.

(** The threshold-positive pass (line 133):
    [where(greater_equal(max_overlaps, RPN_POSITIVE_OVERLAP), ones, labels)]. *)
Definition threshold_positive (max_overlaps : list Q) (RPN_POSITIVE_OVERLAP : Q)
  (ones labels : list Z) : result (list Z) :=
  where3 (map (fun o => greater_equal o RPN_POSITIVE_OVERLAP) max_overlaps) ones labels.

(** [ones_like(y_pred[:, :1])]: one entry per row of [y_pred].  The (N, 1)
    columns [ones], [zeros] and [labels] are held as their N entries. *)
Definition ones_like_first_column (y_pred : tensor Q) : result (list Z) :=
  if ndim y_pred <? 2 then Error SliceError
  else OK (repeat 1%Z (dim y_pred 0)).

(** Lines 112-139 of [label]: the labels before balancing. *)
Definition label_raw (y_true y_pred : tensor Q)
  (RPN_NEGATIVE_OVERLAP RPN_POSITIVE_OVERLAP : Q) (clobber_positives : bool)
  : result (list nat * list Z) :=
  ones <- ones_like_first_column y_pred ;;
  let labels := map (fun o => (o * -1)%Z) ones in
  let zeros := map (fun _ => 0%Z) ones in
  '(argmax_overlaps_inds, max_overlaps, gt_argmax_overlaps_inds) <-
     overlapping y_pred y_true ;;
  labels <- (if negb clobber_positives
             then assign_background max_overlaps RPN_NEGATIVE_OVERLAP zeros labels
             else OK labels) ;;
  labels <- force_positive gt_argmax_overlaps_inds labels ;;
  labels <- threshold_positive max_overlaps RPN_POSITIVE_OVERLAP ones labels ;;
  labels <- (if clobber_positives
             then assign_background max_overlaps RPN_NEGATIVE_OVERLAP zeros labels
             else OK labels) ;;
  OK (argmax_overlaps_inds, labels).

Definition label (y_true y_pred : tensor Q)
  (RPN_NEGATIVE_OVERLAP RPN_POSITIVE_OVERLAP : Q) (clobber_positives : bool)
  (g : rng) : result (list nat * list Z * rng) :=
  '(argmax_overlaps_inds, labels) <-
     label_raw y_true y_pred RPN_NEGATIVE_OVERLAP RPN_POSITIVE_OVERLAP clobber_positives ;;
  '(labels, g') <- balance labels g ;;
  OK (argmax_overlaps_inds, labels, g').

(** *** [inside_image] *)

Definition inside_image (boxes : tensor Q) (im_info : list Q) (allowed_border : Q)
  : result (list bool) :=
  c0 <- column boxes 0 ;;
  c1 <- column boxes 1 ;;
  c2 <- column boxes 2 ;;
  c3 <- column boxes 3 ;;
  width <- item im_info 1 ;;
  height <- item im_info 0 ;;
  OK (map (fun p : Q * (Q * (Q * Q)) =>
             let '(b0, (b1, (b2, b3))) := p in
             greater_equal b0 (- allowed_border)%Q &&
             greater_equal b1 (- allowed_border)%Q &&
             less b2 (allowed_border + width)%Q &&
             less b3 (allowed_border + height)%Q)
          (combine c0 (combine c1 (combine c2 c3)))).

(** The test [inside_image] applies to one box, for an image of the given
    width and height. *)
Definition inside_box (width height allowed_border : Q) (b : box) : bool :=
  greater_equal (x1 b) (- allowed_border)%Q &&
  greater_equal (y1 b) (- allowed_border)%Q &&
  less (x2 b) (allowed_border + width)%Q &&
  less (y2 b) (allowed_border + height)%Q.

(** *** [AnchorTarget.call] *)

(** The border mask of line 67:
    [where(inds_inside, labels, -1 * ones_like(labels))]. *)
Definition border_mask (inds_inside : list bool) (labels : list Z) : result (list Z) :=
  where3 inds_inside labels (map (fun o => (-1 * o)%Z) (map (fun _ => 1%Z) labels)).

(** [call]: [scores] is read for its shape only; [metadata] is a batch of
    (height, width, scale) rows. *)
Definition call (self : AnchorTarget) (scores : list nat) (gt_boxes : tensor Q)
  (metadata : list (list Q)) (g : rng) : result (tensor Z * tensor Q * rng) :=
  metadata <- item metadata 0 ;;
  gt_boxes <- index0 gt_boxes ;;
  rr <- shape_at scores 1 ;;
  cc <- shape_at scores 2 ;;
  let anchors := boxes_tensor (shift (rr, cc) (stride self)) in
  '(argmax_overlaps_indices, labels, g') <-
     label gt_boxes anchors (negative_overlap self) (positive_overlap self)
       (clobber_positives self) g ;;
  gt_rows <- gather (rows gt_boxes) argmax_overlaps_indices ;;
  let bbox_reg_targets := bbox_transform anchors gt_rows in
  bbox_reg_targets <- reshape_rows4 bbox_reg_targets ;;
  inds_inside <- inside_image anchors metadata (allowed_border self) ;;
  labels <- border_mask inds_inside labels ;;
  let labels := expand_dims0 (mkTensor [length labels] labels) in
  let bbox_reg_targets := expand_dims0 bbox_reg_targets in
  OK (labels, bbox_reg_targets, g').


(** The inputs on which [call] returns: a batch of metadata rows whose first
    row holds a height and a width, a ground-truth tensor of rank 3 with a
    first image of at least one box, scores of rank 3 or more, and a grid
    that generates at least one anchor. *)
Definition well_formed (self : AnchorTarget) (scores : list nat) (gt_boxes : tensor Q)
  (metadata : list (list Q)) : bool :=
  match metadata, shape gt_boxes, scores with
  | (_ :: _ :: _) :: _, [S _; S _; _], _ :: rr :: cc :: _ =>
      negb (length (shift (rr, cc) (stride self)) =? 0)
  | _, _, _ => false
  end.

(** * Properties of the primitives *)

(** ** Comparisons *)

Lemma less_lt (a b : Q) : less a b = true <-> (a < b)%Q.
Proof.
  unfold less. rewrite negb_true_iff. split.
  - intros H. apply Qnot_le_lt. intros Hle.
    apply Qle_bool_iff in Hle. congruence.
  - intros H. destruct (Qle_bool b a) eqn:E; [|reflexivity].
    apply Qle_bool_iff in E. exfalso. exact (Qlt_not_le _ _ H E).
Qed.

Lemma less_ge (a b : Q) : less a b = false <-> (b <= a)%Q.
Proof.
  unfold less. rewrite negb_false_iff. apply Qle_bool_iff.
Qed.

Lemma greater_equal_le (a b : Q) : greater_equal a b = true <-> (b <= a)%Q.
Proof. apply Qle_bool_iff. Qed.

(** ** Rows of a tensor *)

Lemma length_chunk {A : Type} (w n : nat) : forall l : list A, length (chunk w n l) = n.
Proof.
  induction n as [|n IH]; intros l; simpl; [reflexivity|].
  now rewrite IH.
Qed.

Lemma length_rows {A : Type} (t : tensor A) : length (rows t) = dim t 0.
Proof. apply length_chunk. Qed.

Lemma chunk_box_rows (bs : list box) :
  chunk 4 (length bs) (flat_map box_row bs) = map box_row bs.
Proof.
  induction bs as [|b bs IH]; simpl; [reflexivity|].
  now rewrite IH.
Qed.

Lemma rows_boxes_tensor (bs : list box) : rows (boxes_tensor bs) = map box_row bs.
Proof. apply chunk_box_rows. Qed.

Lemma length_box_rows (bs : list box) : length (flat_map box_row bs) = 4 * length bs.
Proof.
  induction bs as [|b bs IH]; simpl; [reflexivity|].
  rewrite IH. lia.
Qed.

Lemma nth_map_lt {A B : Type} (f : A -> B) (l : list A) (d : A) (d' : B) (i : nat) :
  i < length l -> nth i (map f l) d' = f (nth i l d).
Proof.
  intros Hi. rewrite (nth_indep _ d' (f d)) by (now rewrite length_map).
  apply map_nth.
Qed.

(** ** [gather] and [gather_nd] *)

Lemma gather_ok {A : Type} (ref : list A) (d : A) :
  forall indices : list nat,
    (forall i, In i indices -> i < length ref) ->
    gather ref indices = OK (map (fun i => nth i ref d) indices).
Proof.
  induction indices as [|i indices IH]; intros Hin; simpl; [reflexivity|].
  assert (Hi : i < length ref) by (apply Hin; now left).
  rewrite (nth_error_nth' ref d Hi), IH by (intros; apply Hin; now right).
  reflexivity.
Qed.

Lemma gather_nd_ok (m : list (list Q)) :
  forall indices : list (nat * nat),
    (forall p, In p indices ->
               fst p < length m /\ snd p < length (nth (fst p) m [])) ->
    gather_nd m indices =
    OK (map (fun p => nth (snd p) (nth (fst p) m []) 0%Q) indices).
Proof.
  induction indices as [|[i j] indices IH]; intros Hin; simpl; [reflexivity|].
  destruct (Hin (i, j)) as [Hi Hj]; [now left|]. simpl in Hi, Hj.
  rewrite (nth_error_nth' m [] Hi), (nth_error_nth' _ 0%Q Hj).
  rewrite IH by (intros; apply Hin; now right).
  reflexivity.
Qed.

(** ** [where] *)

Lemma where3_ok {A : Type} (condition : list bool) (x y : list A) (d : A) :
  length x = length condition -> length y = length condition ->
  exists l, where3 condition x y = OK l /\
            length l = length condition /\
            forall i, i < length condition ->
                      nth i l d = if nth i condition false then nth i x d else nth i y d.
Proof.
  intros Hx Hy. unfold where3.
  rewrite Hx, Hy, Nat.eqb_refl. simpl.
  eexists. split; [reflexivity|]. split.
  - rewrite length_map, !length_combine. lia.
  - intros i Hi.
    set (f := fun p : bool * (A * A) => if fst p then fst (snd p) else snd (snd p)).
    change (nth i (map f (combine condition (combine x y))) (f (false, (d, d))) =
            if nth i condition false then nth i x d else nth i y d).
    rewrite map_nth, !combine_nth by (rewrite ?length_combine; lia).
    reflexivity.
Qed.

(** ** In-place update and scatter-add *)

Lemma length_set_nth {A : Type} (x : A) :
  forall (ref : list A) (i : nat), length (set_nth i x ref) = length ref.
Proof.
  induction ref as [|y ref IH]; intros [|i]; simpl; auto.
Qed.

Lemma nth_set_nth {A : Type} (x d : A) :
  forall (ref : list A) (i j : nat),
    i < length ref ->
    nth j (set_nth i x ref) d = if j =? i then x else nth j ref d.
Proof.
  induction ref as [|y ref IH]; intros [|i] [|j] Hi; simpl in *; try lia; auto.
  apply IH. lia.
Qed.

Lemma existsb_eqb_In (j : nat) (l : list nat) :
  existsb (Nat.eqb j) l = true <-> In j l.
Proof.
  rewrite existsb_exists. split.
  - intros [k [Hk E]]. apply Nat.eqb_eq in E. now subst.
  - intros H. exists j. split; [assumption|apply Nat.eqb_refl].
Qed.

(** Scatter-adding [c - ref[i]] at pairwise distinct positions writes [c]
    there and leaves the other entries alone. *)
Lemma scatter_add_constant (c : Z) :
  forall (indices : list nat) (ref : list Z),
    NoDup indices ->
    (forall i, In i indices -> i < length ref) ->
    exists l,
      scatter_add_tensor ref indices (map (fun i => (c - nth i ref 0)%Z) indices) = OK l /\
      length l = length ref /\
      forall j, nth j l 0%Z = if existsb (Nat.eqb j) indices then c else nth j ref 0%Z.
Proof.
  induction indices as [|i indices IH]; intros ref Hnd Hin; simpl.
  - exists ref. auto.
  - assert (Hi : i < length ref) by (apply Hin; now left).
    inversion Hnd as [|? ? Hni Hnd']; subst.
    rewrite (nth_error_nth' ref 0%Z Hi).
    replace (nth i ref 0 + (c - nth i ref 0))%Z with c by lia.
    assert (Hmap : map (fun k => (c - nth k ref 0)%Z) indices =
                   map (fun k => (c - nth k (set_nth i c ref) 0)%Z) indices).
    { apply map_ext_in. intros k Hk. rewrite nth_set_nth by assumption.
      destruct (k =? i) eqn:E; [|reflexivity].
      apply Nat.eqb_eq in E. subst. contradiction. }
    rewrite Hmap.
    destruct (IH (set_nth i c ref) Hnd') as [l [Hl [Hlen Hnth]]].
    { intros k Hk. rewrite length_set_nth. apply Hin. now right. }
    exists l. split; [assumption|]. split.
    + now rewrite Hlen, length_set_nth.
    + intros j. rewrite Hnth, nth_set_nth by assumption.
      destruct (j =? i) eqn:E; simpl; [|reflexivity].
      destruct (existsb (Nat.eqb j) indices); reflexivity.
Qed.

(** ** [unique] *)

Lemma In_unique (x : list nat) : forall i, In i (unique x) <-> In i x.
Proof.
  induction x as [|a x IH]; intros i; simpl; [tauto|].
  rewrite filter_In, IH, negb_true_iff, Nat.eqb_neq.
  destruct (Nat.eq_dec a i); intuition congruence.
Qed.

Lemma NoDup_unique (x : list nat) : NoDup (unique x).
Proof.
  induction x as [|a x IH]; simpl; constructor.
  - rewrite filter_In, Nat.eqb_refl. simpl. intros [_ ?]. discriminate.
  - now apply NoDup_filter.
Qed.

(** ** [where(equal(labels, v))] *)

Lemma In_where_equal (labels : list Z) (v : Z) (i : nat) :
  In i (where_equal labels v) <-> i < length labels /\ nth i labels 0%Z = v.
Proof.
  unfold where_equal. rewrite filter_In, in_seq, Z.eqb_eq. intuition lia.
Qed.

Lemma NoDup_where_equal (labels : list Z) (v : Z) : NoDup (where_equal labels v).
Proof. apply NoDup_filter, seq_NoDup. Qed.

(** ** Element-wise addition *)

Lemma add_same_length (a b : list Z) :
  length a = length b ->
  add a b = OK (map (fun p : Z * Z => (fst p + snd p)%Z) (combine a b)).
Proof.
  intros H. unfold add. now rewrite H, Nat.eqb_refl.
Qed.

(** ** [argmax] *)

(** Scanning [l] after the prefix [pre], with the running best at [best]. *)
Lemma argmax_from_spec :
  forall (l pre : list Q) (best : nat),
    best < length pre ->
    (forall k, k < length pre -> (nth k pre 0 <= nth best pre 0)%Q) ->
    (forall k, k < best -> (nth k pre 0 < nth best pre 0)%Q) ->
    let r := argmax_from (length pre) best (nth best pre 0%Q) l in
    r < length (pre ++ l) /\
    (forall k, k < length (pre ++ l) -> (nth k (pre ++ l) 0 <= nth r (pre ++ l) 0)%Q) /\
    (forall k, k < r -> (nth k (pre ++ l) 0 < nth r (pre ++ l) 0)%Q).
Proof.
  induction l as [|x l IH]; intros pre best Hb Hmax Hfirst; cbv zeta.
  - simpl. rewrite app_nil_r. auto.
  - assert (Hlen : length (pre ++ [x]) = S (length pre))
      by (rewrite length_app; simpl; lia).
    assert (Hmid : nth (length pre) (pre ++ [x]) 0%Q = x) by apply nth_middle.
    assert (Happ : (pre ++ [x]) ++ l = pre ++ x :: l)
      by (rewrite <- app_assoc; reflexivity).
    simpl. destruct (less (nth best pre 0%Q) x) eqn:E.
    + apply less_lt in E.
      pose proof (IH (pre ++ [x]) (length pre)) as IH'.
      rewrite Hlen, Hmid, Happ in IH'. apply IH'.
      * lia.
      * intros k Hk. destruct (Nat.eq_dec k (length pre)) as [->|Hne].
        -- rewrite Hmid. apply Qle_refl.
        -- rewrite app_nth1 by lia.
           apply Qle_trans with (nth best pre 0%Q);
             [apply Hmax; lia|now apply Qlt_le_weak].
      * intros k Hk. rewrite app_nth1 by lia.
        apply Qle_lt_trans with (nth best pre 0%Q); [apply Hmax; lia|assumption].
    + apply less_ge in E.
      pose proof (IH (pre ++ [x]) best) as IH'.
      rewrite Hlen, Happ, (app_nth1 pre [x] 0%Q Hb) in IH'. apply IH'.
      * lia.
      * intros k Hk. destruct (Nat.eq_dec k (length pre)) as [->|Hne].
        -- now rewrite Hmid.
        -- rewrite app_nth1 by lia. apply Hmax. lia.
      * intros k Hk. rewrite app_nth1 by lia. now apply Hfirst.
Qed.

(** [argmax_list] returns the first position of the maximum. *)
Lemma argmax_list_spec (l : list Q) :
  0 < length l ->
  argmax_list l < length l /\
  (forall k, k < length l -> (nth k l 0 <= nth (argmax_list l) l 0)%Q) /\
  (forall k, k < argmax_list l -> (nth k l 0 < nth (argmax_list l) l 0)%Q).
Proof.
  destruct l as [|x l]; simpl; [lia|]. intros _.
  apply (argmax_from_spec l [x] 0); simpl.
  - lia.
  - intros [|k] Hk; [apply Qle_refl|lia].
  - intros k Hk. lia.
Qed.

(** ** [overlapping] *)

Lemma overlap_row_length (anchors gt_boxes : tensor Q) (r : list Q) :
  In r (entries (overlap anchors gt_boxes)) -> length r = dim gt_boxes 0.
Proof.
  simpl. rewrite in_map_iff. intros [a [<- _]].
  now rewrite length_map, length_rows.
Qed.

Lemma length_overlap (anchors gt_boxes : tensor Q) :
  length (entries (overlap anchors gt_boxes)) = dim anchors 0.
Proof. simpl. now rewrite length_map, length_rows. Qed.

Lemma gather_nd_rows (f : list Q -> nat) (m : list (list Q)) :
  map (fun p => nth (snd p) (nth (fst p) m []) 0%Q)
      (combine (seq 0 (length m)) (map f m)) =
  map (fun r => nth (f r) r 0%Q) m.
Proof.
  apply nth_ext with (d := 0%Q) (d' := 0%Q).
  - rewrite !length_map, length_combine, length_seq, length_map. lia.
  - intros i Hi.
    rewrite length_map, length_combine, length_seq, length_map in Hi.
    rewrite (nth_map_lt _ _ (0, 0))
      by (rewrite length_combine, length_seq, length_map; lia).
    rewrite (nth_map_lt _ m []) by lia.
    rewrite combine_nth by (now rewrite length_seq, length_map).
    rewrite seq_nth by lia. cbn [fst snd Nat.add].
    now rewrite (nth_map_lt f m []) by lia.
Qed.

(** On 2-D inputs with at least one anchor and one ground-truth box,
    [overlapping] returns the row-wise argmax, the row-wise maximum and the
    column-wise argmax of the overlap matrix. *)
Lemma overlapping_ok (anchors gt_boxes : tensor Q) :
  ndim anchors = 2 -> ndim gt_boxes = 2 ->
  0 < dim anchors 0 -> 0 < dim gt_boxes 0 ->
  let reference := overlap anchors gt_boxes in
  overlapping anchors gt_boxes =
  OK (map argmax_list (entries reference),
      map (fun r => nth (argmax_list r) r 0%Q) (entries reference),
      map (fun j => argmax_list (matrix_column reference j)) (seq 0 (dim gt_boxes 0))).
Proof.
  intros Ha Hg HN HM reference. unfold overlapping.
  assert (HlenE : length (entries reference) = dim anchors 0)
    by apply length_overlap.
  rewrite Ha, Hg. simpl assert. cbn [bind].
  unfold argmax_axis0, argmax_axis1.
  change (nrows (overlap anchors gt_boxes)) with (dim anchors 0).
  change (ncols (overlap anchors gt_boxes)) with (dim gt_boxes 0).
  destruct (dim anchors 0 =? 0) eqn:EN; [apply Nat.eqb_eq in EN; lia|].
  destruct (dim gt_boxes 0 =? 0) eqn:EM; [apply Nat.eqb_eq in EM; lia|].
  cbn [bind]. fold reference.
  rewrite gather_nd_ok.
  - cbn [bind]. rewrite <- HlenE. now rewrite gather_nd_rows.
  - intros [i j] Hin. cbn [fst snd].
    apply (In_nth _ _ (0, 0)) in Hin. destruct Hin as [k [Hk Hnth]].
    rewrite length_combine, length_seq, length_map in Hk.
    rewrite combine_nth in Hnth by (rewrite length_seq, length_map; lia).
    rewrite seq_nth in Hnth by lia. cbn [Nat.add] in Hnth.
    injection Hnth as Hki Hj. subst i.
    split; [lia|].
    assert (Hrow : length (nth k (entries reference) []) = dim gt_boxes 0)
      by (apply (overlap_row_length anchors gt_boxes), nth_In;
          change (k < length (entries reference)); lia).
    change (nth k (map argmax_list (entries reference)) 0 = j) in Hj.
    rewrite <- Hj, (nth_map_lt argmax_list _ []) by lia.
    rewrite Hrow.
    pose proof (argmax_list_spec (nth k (entries reference) [])) as Hs.
    rewrite Hrow in Hs. apply Hs. lia.
Qed.

(** ** Counting labels *)

Lemma map_combine_map {A B C D : Type} (f : A -> B) (g : A -> C) (h : B * C -> D) :
  forall l : list A,
    map h (combine (map f l) (map g l)) = map (fun i => h (f i, g i)) l.
Proof.
  induction l as [|a l IH]; simpl; [reflexivity|]. now rewrite IH.
Qed.

Lemma filter_filter {A : Type} (f g : A -> bool) :
  forall l : list A, filter f (filter g l) = filter (fun x => g x && f x) l.
Proof.
  induction l as [|a l IH]; simpl; [reflexivity|].
  destruct (g a); simpl; [destruct (f a)|]; now rewrite IH.
Qed.

Lemma filter_negb_length {A : Type} (p : A -> bool) :
  forall l : list A,
    length (filter (fun x => negb (p x)) l) + length (filter p l) = length l.
Proof.
  induction l as [|a l IH]; simpl; [reflexivity|].
  destruct (p a); simpl; lia.
Qed.

Lemma length_filter_members (indices l : list nat) :
  NoDup indices -> NoDup l -> (forall i, In i indices -> In i l) ->
  length (filter (fun j => existsb (Nat.eqb j) indices) l) = length indices.
Proof.
  intros Hi Hl Hsub. apply Permutation_length, NoDup_Permutation.
  - now apply NoDup_filter.
  - assumption.
  - intros j. rewrite filter_In, existsb_eqb_In. intuition.
Qed.

(** Writing -1 at [indices] removes them from the positions of any other
    value. *)
Lemma where_equal_flip (labels l : list Z) (indices : list nat) (v : Z) :
  length l = length labels ->
  (forall j, nth j l 0%Z =
             if existsb (Nat.eqb j) indices then (-1)%Z else nth j labels 0%Z) ->
  v <> (-1)%Z ->
  where_equal l v =
  filter (fun j => negb (existsb (Nat.eqb j) indices)) (where_equal labels v).
Proof.
  intros Hlen Hnth Hv. unfold where_equal.
  rewrite filter_filter, Hlen. apply filter_ext. intros j.
  rewrite Hnth. destruct (existsb (Nat.eqb j) indices); cbv beta iota; cbn [negb].
  - rewrite andb_false_r. apply Z.eqb_neq. congruence.
  - now rewrite andb_true_r.
Qed.

Lemma where_equal_flip_other (labels l : list Z) (indices : list nat) (v w : Z) :
  length l = length labels ->
  (forall j, nth j l 0%Z =
             if existsb (Nat.eqb j) indices then (-1)%Z else nth j labels 0%Z) ->
  (forall i, In i indices -> nth i labels 0%Z = v) ->
  w <> v -> w <> (-1)%Z ->
  where_equal l w = where_equal labels w.
Proof.
  intros Hlen Hnth Hv Hwv Hw.
  rewrite (where_equal_flip labels l indices w Hlen Hnth Hw).
  rewrite <- (filter_true (where_equal labels w)) at 2.
  apply filter_ext_in. intros j Hj. apply In_where_equal in Hj.
  apply negb_true_iff. destruct (existsb (Nat.eqb j) indices) eqn:E; [|reflexivity].
  apply existsb_eqb_In, Hv in E. intuition congruence.
Qed.

Lemma where_equal_flip_length (labels l : list Z) (indices : list nat) (v : Z) :
  length l = length labels ->
  (forall j, nth j l 0%Z =
             if existsb (Nat.eqb j) indices then (-1)%Z else nth j labels 0%Z) ->
  NoDup indices ->
  (forall i, In i indices -> In i (where_equal labels v)) ->
  v <> (-1)%Z ->
  length (where_equal l v) + length indices = length (where_equal labels v).
Proof.
  intros Hlen Hnth Hnd Hsub Hv.
  rewrite (where_equal_flip labels l indices v Hlen Hnth Hv).
  rewrite <- (length_filter_members indices (where_equal labels v));
    auto using NoDup_where_equal.
  apply filter_negb_length.
Qed.

(** The body shared by [more_positive] and [more_negative]: the labels at
    [indices] become -1. *)
Lemma more_updates (labels : list Z) :
  forall indices : list nat,
    map (fun p : Z * Z => (fst p + snd p)%Z)
        (combine (map (fun x => (x * -1)%Z) (map (fun i => nth i labels 0%Z) indices))
                 (map (fun o => (o * -1)%Z) (repeat 1%Z (length indices)))) =
    map (fun i => (-1 - nth i labels 0)%Z) indices.
Proof.
  induction indices as [|i indices IH]; [reflexivity|].
  cbn [map combine repeat length fst snd].
  rewrite IH. f_equal. lia.
Qed.

Lemma more_ok (labels : list Z) (indices : list nat) (n : nat) :
  NoDup indices ->
  (forall i, In i indices -> i < length labels) ->
  length indices = n ->
  exists l,
    length l = length labels /\
    (forall j, nth j l 0%Z =
               if existsb (Nat.eqb j) indices then (-1)%Z else nth j labels 0%Z) /\
    forall (B : Type) (k : list Z -> result B),
      (gathered <- gather labels indices ;;
       upd <- add (map (fun x => (x * -1)%Z) gathered)
                  (map (fun o => (o * -1)%Z) (repeat 1%Z n)) ;;
       labels' <- scatter_add_tensor labels indices upd ;;
       k labels') = k l.
Proof.
  intros Hnd Hin Hn.
  destruct (scatter_add_constant (-1) indices labels Hnd Hin) as [l [Hl [Hlen Hnth]]].
  exists l. split; [assumption|]. split; [assumption|].
  intros B k.
  rewrite (gather_ok labels 0%Z indices Hin). cbn [bind].
  rewrite add_same_length by (rewrite !length_map, repeat_length; lia).
  cbn [bind]. rewrite <- Hn, more_updates, Hl. reflexivity.
Qed.

(** * The balance sampler *)

Lemma num_fg_value : int (RPN_FG_FRACTION * inject_Z RPN_BATCHSIZE)%Q = 128%Z.
Proof. reflexivity. Qed.

Lemma NoDup_firstn {A : Type} (n : nat) (l : list A) : NoDup l -> NoDup (firstn n l).
Proof.
  intros H. rewrite <- (firstn_skipn n l) in H.
  now apply NoDup_app_remove_r in H.
Qed.

Lemma In_firstn {A : Type} (n : nat) (l : list A) (x : A) : In x (firstn n l) -> In x l.
Proof.
  intros H. rewrite <- (firstn_skipn n l). apply in_or_app. now left.
Qed.

(** The first [n] entries of a shuffle of [inds]: distinct members of [inds]. *)
Lemma shuffle_prefix (inds : list nat) (g : rng) (n : nat) :
  NoDup inds -> n <= length inds ->
  let indices := firstn n (fst (shuffle inds g)) in
  NoDup indices /\ length indices = n /\ forall i, In i indices -> In i inds.
Proof.
  intros Hnd Hn indices. pose proof (shuffle_perm inds g) as Hp.
  split; [|split].
  - apply NoDup_firstn. eapply Permutation_NoDup; eassumption.
  - unfold indices. rewrite length_firstn, <- (Permutation_length Hp). lia.
  - intros i Hi. apply In_firstn in Hi.
    eapply Permutation_in; [apply Permutation_sym|]; eassumption.
Qed.

Lemma subsample_positive_ok (labels : list Z) (g : rng) :
  exists l g',
    subsample_positive_labels labels g = OK (l, g') /\
    length l = length labels /\
    count 1 l = Nat.min (count 1 labels) 128 /\
    where_equal l 0 = where_equal labels 0 /\
    (count 1 labels <= 128 -> l = labels) /\
    (forall j, nth j l 0%Z = nth j labels 0%Z \/
               (nth j labels 0%Z = 1%Z /\ nth j l 0%Z = (-1)%Z)).
Proof.
  unfold subsample_positive_labels, count. rewrite num_fg_value.
  set (fg_inds := where_equal labels 1).
  destruct (Z.of_nat (length fg_inds) - 128 <=? 0)%Z eqn:E.
  - apply Z.leb_le in E. exists labels, g.
    repeat split; auto. fold fg_inds. lia.
  - apply Z.leb_gt in E.
    set (n := Z.to_nat (Z.of_nat (length fg_inds) - 128)).
    destruct (shuffle_prefix fg_inds g n) as [Hnd [Hlen Hsub]];
      [apply NoDup_where_equal|lia|].
    destruct (shuffle fg_inds g) as [shuffled g'] eqn:Es. simpl fst in *.
    destruct (more_ok labels (firstn n shuffled) n Hnd) as [l [Hl [Hnth Hk]]];
      [intros i Hi; apply Hsub, In_where_equal in Hi; tauto|assumption|].
    rewrite Hk. exists l, g'.
    assert (Hone : forall i, In i (firstn n shuffled) -> nth i labels 0%Z = 1%Z)
      by (intros i Hi; apply Hsub, In_where_equal in Hi; tauto).
    split; [reflexivity|]. split; [assumption|]. split; [|split; [|split]].
    + pose proof (where_equal_flip_length labels l _ 1 Hl Hnth Hnd Hsub) as Hc.
      fold fg_inds in Hc. lia.
    + apply (where_equal_flip_other labels l _ 1 0 Hl Hnth Hone); lia.
    + lia.
    + intros j. rewrite Hnth.
      destruct (existsb (Nat.eqb j) (firstn n shuffled)) eqn:Ej; [right|now left].
      apply existsb_eqb_In in Ej. auto.
Qed.

Lemma subsample_negative_ok (labels : list Z) (g : rng) :
  count 1 labels <= 256 ->
  exists l g',
    subsample_negative_labels labels g = OK (l, g') /\
    length l = length labels /\
    count 0 l = Nat.min (count 0 labels) (256 - count 1 labels) /\
    where_equal l 1 = where_equal labels 1 /\
    (count 0 labels <= 256 - count 1 labels -> l = labels) /\
    (forall j, nth j l 0%Z = nth j labels 0%Z \/
               (nth j labels 0%Z = 0%Z /\ nth j l 0%Z = (-1)%Z)).
Proof.
  unfold subsample_negative_labels, count, RPN_BATCHSIZE. intros Hfg.
  set (bg_inds := where_equal labels 0).
  set (fg := length (where_equal labels 1)) in *.
  destruct (Z.of_nat (length bg_inds) - (256 - Z.of_nat fg) <=? 0)%Z eqn:E.
  - apply Z.leb_le in E. exists labels, g.
    repeat split; auto. fold bg_inds. lia.
  - apply Z.leb_gt in E.
    set (n := Z.to_nat (Z.of_nat (length bg_inds) - (256 - Z.of_nat fg))).
    destruct (shuffle_prefix bg_inds g n) as [Hnd [Hlen Hsub]];
      [apply NoDup_where_equal|lia|].
    destruct (shuffle bg_inds g) as [shuffled g'] eqn:Es. simpl fst in *.
    destruct (more_ok labels (firstn n shuffled) n Hnd) as [l [Hl [Hnth Hk]]];
      [intros i Hi; apply Hsub, In_where_equal in Hi; tauto|assumption|].
    rewrite Hk. exists l, g'.
    assert (Hzero : forall i, In i (firstn n shuffled) -> nth i labels 0%Z = 0%Z)
      by (intros i Hi; apply Hsub, In_where_equal in Hi; tauto).
    split; [reflexivity|]. split; [assumption|]. split; [|split; [|split]].
    + pose proof (where_equal_flip_length labels l _ 0 Hl Hnth Hnd Hsub) as Hc.
      fold bg_inds in Hc. lia.
    + apply (where_equal_flip_other labels l _ 0 1 Hl Hnth Hzero); lia.
    + lia.
    + intros j. rewrite Hnth.
      destruct (existsb (Nat.eqb j) (firstn n shuffled)) eqn:Ej; [right|now left].
      apply existsb_eqb_In in Ej. auto.
Qed.

Lemma balance_ok (labels : list Z) (g : rng) :
  exists l g',
    balance labels g = OK (l, g') /\
    length l = length labels /\
    count 1 l = Nat.min (count 1 labels) 128 /\
    count 0 l = Nat.min (count 0 labels) (256 - count 1 l) /\
    (count 1 labels <= 128 -> where_equal l 1 = where_equal labels 1) /\
    (count 0 labels <= 256 - count 1 l -> where_equal l 0 = where_equal labels 0) /\
    (forall j, nth j l 0%Z = nth j labels 0%Z \/
               ((nth j labels 0%Z = 1%Z \/ nth j labels 0%Z = 0%Z) /\
                nth j l 0%Z = (-1)%Z)).
Proof.
  destruct (subsample_positive_ok labels g)
    as [l1 [g1 [H1 [Hlen1 [Hfg1 [Hbg1 [Hsame1 Hpt1]]]]]]].
  destruct (subsample_negative_ok l1 g1)
    as [l2 [g2 [H2 [Hlen2 [Hbg2 [Hfg2 [Hsame2 Hpt2]]]]]]]; [lia|].
  assert (Hc1 : count 1 l2 = count 1 l1) by (unfold count; now rewrite Hfg2).
  assert (Hc0 : count 0 l1 = count 0 labels) by (unfold count; now rewrite Hbg1).
  exists l2, g2. unfold balance. rewrite H1. cbn [bind].
  split; [assumption|]. split; [congruence|]. split; [congruence|].
  split; [rewrite Hc1, <- Hc0; assumption|]. split; [|split].
  - intros Hq. rewrite Hfg2. now rewrite Hsame1.
  - intros Hq. rewrite Hsame2 by lia. assumption.
  - intros j. destruct (Hpt2 j) as [E2|[E2 E2']], (Hpt1 j) as [E1|[E1 E1']].
    + left. congruence.
    + right. split; [now left|congruence].
    + right. split; [right; congruence|assumption].
    + congruence.
Qed.

(** * The label assigner *)

(** What [overlapping] returns on well-formed inputs: per anchor the first
    ground-truth box of maximal overlap and that overlap, per ground-truth box
    the first anchor of maximal overlap. *)
Lemma overlapping_facts (anchors gt_boxes : tensor Q) :
  ndim anchors = 2 -> ndim gt_boxes = 2 ->
  0 < dim anchors 0 -> 0 < dim gt_boxes 0 ->
  exists argmax_overlaps_inds max_overlaps gt_argmax_overlaps_inds,
    overlapping anchors gt_boxes =
      OK (argmax_overlaps_inds, max_overlaps, gt_argmax_overlaps_inds) /\
    length argmax_overlaps_inds = dim anchors 0 /\
    length max_overlaps = dim anchors 0 /\
    length gt_argmax_overlaps_inds = dim gt_boxes 0 /\
    (forall i, i < dim anchors 0 ->
       let j := nth i argmax_overlaps_inds 0 in
       j < dim gt_boxes 0 /\
       nth i max_overlaps 0%Q = overlap_at anchors gt_boxes i j /\
       (forall k, k < dim gt_boxes 0 ->
                  (overlap_at anchors gt_boxes i k <= overlap_at anchors gt_boxes i j)%Q) /\
       (forall k, k < j ->
                  (overlap_at anchors gt_boxes i k < overlap_at anchors gt_boxes i j)%Q)) /\
    (forall j, j < dim gt_boxes 0 ->
       let i := nth j gt_argmax_overlaps_inds 0 in
       i < dim anchors 0 /\
       (forall k, k < dim anchors 0 ->
                  (overlap_at anchors gt_boxes k j <= overlap_at anchors gt_boxes i j)%Q) /\
       (forall k, k < i ->
                  (overlap_at anchors gt_boxes k j < overlap_at anchors gt_boxes i j)%Q)).
Proof.
  intros Ha Hg HN HM.
  pose proof (overlapping_ok anchors gt_boxes Ha Hg HN HM) as Hok. cbv zeta in Hok.
  pose proof (length_overlap anchors gt_boxes) as HlenE.
  set (reference := overlap anchors gt_boxes) in *.
  eexists _, _, _. split; [exact Hok|].
  rewrite !length_map, length_seq, HlenE.
  split; [reflexivity|]. split; [reflexivity|]. split; [reflexivity|]. split.
  - intros i Hi. cbv zeta.
    rewrite (nth_map_lt argmax_list _ []), (nth_map_lt _ _ []) by lia.
    unfold overlap_at. fold reference.
    assert (Hrow : length (nth i (entries reference) []) = dim gt_boxes 0)
      by (apply (overlap_row_length anchors gt_boxes), nth_In;
          change (i < length (entries reference)); lia).
    destruct (argmax_list_spec (nth i (entries reference) [])) as [H1 [H2 H3]];
      [lia|].
    rewrite Hrow in H1, H2. auto.
  - intros j Hj. cbv zeta.
    rewrite (nth_map_lt _ _ 0) by (rewrite length_seq; lia).
    rewrite seq_nth by lia. cbn [Nat.add].
    assert (Hcol : length (matrix_column reference j) = dim anchors 0)
      by (unfold matrix_column; now rewrite length_map).
    assert (Hent : forall k, k < dim anchors 0 ->
                     nth k (matrix_column reference j) 0%Q =
                     overlap_at anchors gt_boxes k j).
    { intros k Hk. unfold matrix_column, overlap_at. fold reference.
      now rewrite (nth_map_lt _ _ []) by lia. }
    destruct (argmax_list_spec (matrix_column reference j)) as [H1 [H2 H3]];
      [lia|].
    rewrite Hcol in H1, H2. split; [assumption|]. split.
    + intros k Hk. rewrite <- !Hent by lia. now apply H2.
    + intros k Hk. rewrite <- !Hent by lia. now apply H3.
Qed.

Lemma assign_background_ok (max_overlaps : list Q) (NEG : Q) (zeros labels : list Z) :
  length zeros = length max_overlaps -> length labels = length max_overlaps ->
  exists l,
    assign_background max_overlaps NEG zeros labels = OK l /\
    length l = length max_overlaps /\
    forall i, i < length max_overlaps ->
      nth i l 0%Z =
      if less (nth i max_overlaps 0%Q) NEG then nth i zeros 0%Z else nth i labels 0%Z.
Proof.
  intros Hz Hl. unfold assign_background.
  destruct (where3_ok (map (fun o => less o NEG) max_overlaps) zeros labels 0%Z)
    as [l [H1 [H2 H3]]]; rewrite ?length_map; auto.
  rewrite length_map in H2.
  exists l. split; [assumption|]. split; [assumption|].
  intros i Hi. rewrite H3 by (now rewrite length_map).
  now rewrite (nth_map_lt _ _ 0%Q) by assumption.
Qed.

Lemma threshold_positive_ok (max_overlaps : list Q) (POS : Q) (ones labels : list Z) :
  length ones = length max_overlaps -> length labels = length max_overlaps ->
  exists l,
    threshold_positive max_overlaps POS ones labels = OK l /\
    length l = length max_overlaps /\
    forall i, i < length max_overlaps ->
      nth i l 0%Z =
      if greater_equal (nth i max_overlaps 0%Q) POS then nth i ones 0%Z
      else nth i labels 0%Z.
Proof.
  intros Hz Hl. unfold threshold_positive.
  destruct (where3_ok (map (fun o => greater_equal o POS) max_overlaps) ones labels 0%Z)
    as [l [H1 [H2 H3]]]; rewrite ?length_map; auto.
  rewrite length_map in H2.
  exists l. split; [assumption|]. split; [assumption|].
  intros i Hi. rewrite H3 by (now rewrite length_map).
  now rewrite (nth_map_lt _ _ 0%Q) by assumption.
Qed.

Lemma existsb_unique (j : nat) (x : list nat) :
  existsb (Nat.eqb j) (unique x) = existsb (Nat.eqb j) x.
Proof.
  apply eq_true_iff_eq. now rewrite !existsb_eqb_In, In_unique.
Qed.

(** The force-positive pass writes 1 at every listed anchor, whatever its
    label was and however often it is listed, and nothing elsewhere. *)
Lemma force_positive_ok (gt_argmax_overlaps_inds : list nat) (labels : list Z) :
  (forall i, In i gt_argmax_overlaps_inds -> i < length labels) ->
  exists l,
    force_positive gt_argmax_overlaps_inds labels = OK l /\
    length l = length labels /\
    forall j, nth j l 0%Z =
              if existsb (Nat.eqb j) gt_argmax_overlaps_inds then 1%Z
              else nth j labels 0%Z.
Proof.
  intros Hin. unfold force_positive.
  set (unique_indices := unique gt_argmax_overlaps_inds).
  assert (Hu : forall i, In i unique_indices -> i < length labels)
    by (intros i Hi; apply Hin, In_unique, Hi).
  rewrite (gather_ok _ 0%Z) by (now rewrite length_map).
  cbn [bind]. rewrite add_same_length by (now rewrite !length_map).
  cbn [bind]. rewrite map_combine_map. cbn [fst snd].
  assert (Hupd : map (fun i => (nth i (map (fun x => (-1 * x)%Z) labels) 0 + 1)%Z)
                     unique_indices =
                 map (fun i => (1 - nth i labels 0)%Z) unique_indices).
  { apply map_ext_in. intros i Hi.
    rewrite (nth_map_lt _ _ 0%Z) by auto. lia. }
  rewrite Hupd.
  destruct (scatter_add_constant 1 unique_indices labels (NoDup_unique _) Hu)
    as [l [H1 [H2 H3]]].
  exists l. split; [assumption|]. split; [assumption|].
  intros j. rewrite H3. unfold unique_indices. now rewrite existsb_unique.
Qed.

(** The labels [label] computes before balancing, entry by entry. *)
Lemma label_raw_ok (y_true y_pred : tensor Q) (NEG POS : Q) (clobber : bool) :
  ndim y_pred = 2 -> ndim y_true = 2 ->
  0 < dim y_pred 0 -> 0 < dim y_true 0 ->
  exists argmax_overlaps_inds max_overlaps gt_argmax_overlaps_inds labels,
    overlapping y_pred y_true =
      OK (argmax_overlaps_inds, max_overlaps, gt_argmax_overlaps_inds) /\
    label_raw y_true y_pred NEG POS clobber = OK (argmax_overlaps_inds, labels) /\
    length labels = dim y_pred 0 /\
    forall i, i < dim y_pred 0 ->
      nth i labels 0%Z =
      let bg := less (nth i max_overlaps 0%Q) NEG in
      let fg := greater_equal (nth i max_overlaps 0%Q) POS
                || existsb (Nat.eqb i) gt_argmax_overlaps_inds in
      if clobber then (if bg then 0 else if fg then 1 else -1)%Z
      else (if fg then 1 else if bg then 0 else -1)%Z.
Proof.
  intros Hp Ht HN HM.
  destruct (overlapping_facts y_pred y_true Hp Ht HN HM)
    as [am [mo [gta [Hov [Ham [Hmo [Hgta [_ Hcol]]]]]]]].
  exists am, mo, gta.
  assert (Hin : forall i, In i gta -> i < dim y_pred 0).
  { intros i Hi. apply (In_nth _ _ 0) in Hi. destruct Hi as [j [Hj <-]].
    rewrite Hgta in Hj. now apply Hcol. }
  unfold label_raw, ones_like_first_column. rewrite Hp.
  change (2 <? 2) with false. cbn [bind]. rewrite Hov. cbn [bind].
  set (N := dim y_pred 0) in *.
  set (ones := repeat 1%Z N).
  set (init := map (fun o => (o * -1)%Z) ones).
  set (zeros := map (fun _ : Z => 0%Z) ones).
  assert (Hones : length ones = N) by apply repeat_length.
  assert (Hinit : length init = N) by (unfold init; now rewrite length_map).
  assert (Hzeros : length zeros = N) by (unfold zeros; now rewrite length_map).
  assert (Hones_i : forall i, i < N -> nth i ones 0%Z = 1%Z)
    by (intros; now apply nth_repeat_lt).
  assert (Hinit_i : forall i, i < N -> nth i init 0%Z = (-1)%Z).
  { intros i Hi. unfold init. rewrite (nth_map_lt _ _ 0%Z) by lia.
    now rewrite Hones_i. }
  assert (Hzeros_i : forall i, i < N -> nth i zeros 0%Z = 0%Z).
  { intros i Hi. unfold zeros. now rewrite (nth_map_lt _ _ 0%Z) by lia. }
  destruct clobber; cbn [negb bind].
  - destruct (force_positive_ok gta init) as [l2 [H2 [Hl2 Hn2]]];
      [now rewrite Hinit|].
    rewrite H2. cbn [bind].
    destruct (threshold_positive_ok mo POS ones l2) as [l3 [H3 [Hl3 Hn3]]];
      [lia|lia|].
    rewrite H3. cbn [bind].
    destruct (assign_background_ok mo NEG zeros l3) as [l4 [H4 [Hl4 Hn4]]];
      [lia|lia|].
    rewrite H4. cbn [bind].
    exists l4. split; [reflexivity|]. split; [reflexivity|]. split; [lia|].
    intros i Hi. cbv zeta.
    rewrite Hn4, Hn3, Hn2, Hzeros_i, Hones_i, Hinit_i by lia.
    destruct (less (nth i mo 0%Q) NEG), (greater_equal (nth i mo 0%Q) POS),
      (existsb (Nat.eqb i) gta); reflexivity.
  - destruct (assign_background_ok mo NEG zeros init) as [l1 [H1 [Hl1 Hn1]]];
      [lia|lia|].
    rewrite H1. cbn [bind].
    destruct (force_positive_ok gta l1) as [l2 [H2 [Hl2 Hn2]]];
      [intros i Hi; rewrite Hl1, Hmo; now apply Hin|].
    rewrite H2. cbn [bind].
    destruct (threshold_positive_ok mo POS ones l2) as [l3 [H3 [Hl3 Hn3]]];
      [lia|lia|].
    rewrite H3. cbn [bind].
    exists l3. split; [reflexivity|]. split; [reflexivity|]. split; [lia|].
    intros i Hi. cbv zeta.
    rewrite Hn3, Hn2, Hn1, Hzeros_i, Hones_i, Hinit_i by lia.
    destruct (less (nth i mo 0%Q) NEG), (greater_equal (nth i mo 0%Q) POS),
      (existsb (Nat.eqb i) gta); reflexivity.
Qed.

(** [label_raw] returns only on 2-D inputs that hold at least one anchor and
    one ground-truth box. *)
Lemma overlapping_returns (anchors gt_boxes : tensor Q) r :
  overlapping anchors gt_boxes = OK r ->
  ndim anchors = 2 /\ ndim gt_boxes = 2 /\ 0 < dim anchors 0 /\ 0 < dim gt_boxes 0.
Proof.
  unfold overlapping, assert, argmax_axis0, argmax_axis1.
  destruct (ndim anchors =? 2) eqn:Ea; cbn [bind]; [|discriminate].
  destruct (ndim gt_boxes =? 2) eqn:Eg; cbn [bind]; [|discriminate].
  change (nrows (overlap anchors gt_boxes)) with (dim anchors 0).
  change (ncols (overlap anchors gt_boxes)) with (dim gt_boxes 0).
  destruct (dim anchors 0 =? 0) eqn:EN; cbn [bind]; [discriminate|].
  destruct (dim gt_boxes 0 =? 0) eqn:EM; cbn [bind]; [discriminate|].
  intros _. apply Nat.eqb_eq in Ea, Eg. apply Nat.eqb_neq in EN, EM. lia.
Qed.

Lemma label_raw_returns (y_true y_pred : tensor Q) (NEG POS : Q) (clobber : bool) r :
  label_raw y_true y_pred NEG POS clobber = OK r ->
  ndim y_pred = 2 /\ ndim y_true = 2 /\ 0 < dim y_pred 0 /\ 0 < dim y_true 0.
Proof.
  unfold label_raw. intros H.
  destruct (ones_like_first_column y_pred) as [ones|]; [|discriminate].
  cbn [bind] in H.
  destruct (overlapping y_pred y_true) as [o|] eqn:E; [|discriminate].
  now apply overlapping_returns in E.
Qed.

(** * The border filter *)

Lemma column_boxes_tensor (bs : list box) (j : nat) :
  j < 4 ->
  column (boxes_tensor bs) j = OK (map (fun b => nth j (box_row b) 0%Q) bs).
Proof.
  intros Hj. unfold column.
  change (ndim (boxes_tensor bs) <? 2) with false.
  change (dim (boxes_tensor bs) 1) with 4.
  destruct (4 <=? j) eqn:E; [apply Nat.leb_le in E; lia|].
  now rewrite rows_boxes_tensor, map_map.
Qed.

Lemma inside_image_ok (bs : list box) (height width : Q) (rest : list Q)
  (allowed_border : Q) :
  inside_image (boxes_tensor bs) (height :: width :: rest) allowed_border =
  OK (map (inside_box width height allowed_border) bs).
Proof.
  unfold inside_image.
  rewrite !column_boxes_tensor by lia. cbn [bind item nth_error].
  f_equal. induction bs as [|b bs IH]; [reflexivity|].
  cbn [map combine]. rewrite IH. reflexivity.
Qed.

Lemma inside_box_spec (width height allowed_border : Q) (b : box) :
  inside_box width height allowed_border b = true <->
  (- allowed_border <= x1 b)%Q /\ (- allowed_border <= y1 b)%Q /\
  (x2 b < allowed_border + width)%Q /\ (y2 b < allowed_border + height)%Q.
Proof.
  unfold inside_box.
  rewrite !andb_true_iff, !greater_equal_le, !less_lt. tauto.
Qed.

Lemma border_mask_ok (inds_inside : list bool) (labels : list Z) :
  length inds_inside = length labels ->
  exists l,
    border_mask inds_inside labels = OK l /\
    length l = length labels /\
    forall i, i < length labels ->
      nth i l 0%Z = if nth i inds_inside false then nth i labels 0%Z else (-1)%Z.
Proof.
  intros Hlen. unfold border_mask.
  destruct (where3_ok inds_inside labels
              (map (fun o => (-1 * o)%Z) (map (fun _ : Z => 1%Z) labels)) 0%Z)
    as [l [H1 [H2 H3]]]; rewrite ?length_map; auto.
  exists l. split; [assumption|]. split; [lia|].
  intros i Hi. rewrite H3 by lia.
  destruct (nth i inds_inside false); [reflexivity|].
  rewrite (nth_map_lt _ _ 0%Z) by (now rewrite length_map).
  now rewrite (nth_map_lt _ _ 0%Z) by assumption.
Qed.

Lemma Forall_nth_lt {A : Type} (P : A -> Prop) (d : A) (l : list A) :
  (forall i, i < length l -> P (nth i l d)) -> Forall P l.
Proof.
  intros H. apply Forall_forall. intros x Hx.
  apply (In_nth _ _ d) in Hx. destruct Hx as [i [Hi <-]]. now apply H.
Qed.

Lemma Forall_nth_at {A : Type} (P : A -> Prop) (d : A) (l : list A) (i : nat) :
  Forall P l -> i < length l -> P (nth i l d).
Proof.
  intros H Hi. rewrite Forall_forall in H. now apply H, nth_In.
Qed.

(** * The layer entry point *)

(** On well-formed inputs [call] returns; its labels are the balanced labels
    of the whole anchor set with -1 written outside the border, and its
    targets are the deltas of every anchor against its matched box. *)
Lemma call_ok (self : AnchorTarget) (scores : list nat) (gt_boxes : tensor Q)
  (metadata : list (list Q)) (g : rng) :
  well_formed self scores gt_boxes metadata = true ->
  exists rr cc gt height width argmax raw balanced g' labels,
    shape_at scores 1 = OK rr /\ shape_at scores 2 = OK cc /\
    index0 gt_boxes = OK gt /\
    (exists rest mrest, metadata = (height :: width :: rest) :: mrest) /\
    let anchors := shift (rr, cc) (stride self) in
    let N := length anchors in
    label_raw gt (boxes_tensor anchors) (negative_overlap self)
      (positive_overlap self) (clobber_positives self) = OK (argmax, raw) /\
    balance raw g = OK (balanced, g') /\
    length raw = N /\ length balanced = N /\ length labels = N /\
    length argmax = N /\
    (forall i, i < N -> nth i argmax 0 < dim gt 0) /\
    Forall ternary raw /\
    (forall i, i < N ->
       nth i balanced 0%Z = nth i raw 0%Z \/ nth i balanced 0%Z = (-1)%Z) /\
    count 1 balanced <= 128 /\ count 1 balanced + count 0 balanced <= 256 /\
    (forall i, i < N ->
       nth i labels 0%Z =
       if inside_box width height (allowed_border self)
            (nth i anchors (mkBox 0 0 0 0))
       then nth i balanced 0%Z else (-1)%Z) /\
    call self scores gt_boxes metadata g =
    OK (mkTensor [1; N] labels,
        mkTensor [1; N; 4]
          (flat_map box_row
             (map (fun p => bbox_delta (fst p) (snd p))
                (combine (map box_row anchors)
                   (map (fun j => nth j (rows gt) []) argmax)))),
        g').
Proof.
  intros Hwf. unfold well_formed in Hwf.
  destruct metadata as [|[|height [|width rest]] mrest]; try discriminate.
  destruct gt_boxes as [sh dat]. cbn [shape] in Hwf.
  destruct sh as [|[|b] [|[|m] [|c [|? ?]]]]; try discriminate.
  destruct scores as [|s0 [|rr [|cc srest]]]; try discriminate.
  apply negb_true_iff, Nat.eqb_neq in Hwf.
  set (gt := mkTensor [S m; c] (firstn (fold_right Nat.mul 1 [S m; c]) dat)).
  set (anchors := shift (rr, cc) (stride self)) in *.
  exists rr, cc, gt, height, width.
  destruct (label_raw_ok gt (boxes_tensor anchors) (negative_overlap self)
              (positive_overlap self) (clobber_positives self))
    as [am [mo [gta [raw [Hov [Hraw [Hlraw Hnraw]]]]]]];
    [reflexivity|reflexivity|cbn; lia|cbn; lia|].
  destruct (overlapping_facts (boxes_tensor anchors) gt)
    as [am' [mo' [gta' [Hov' [Ham [_ [_ [Hrow _]]]]]]]];
    [reflexivity|reflexivity|cbn; lia|cbn; lia|].
  rewrite Hov in Hov'. injection Hov' as <- <- <-.
  change (dim (boxes_tensor anchors) 0) with (length anchors) in *.
  change (dim gt 0) with (S m) in *.
  destruct (balance_ok raw g)
    as [bal [g' [Hbal [Hlbal [Hfg [Hbg [_ [_ Hptbal]]]]]]]].
  destruct (border_mask_ok (map (inside_box width height (allowed_border self)) anchors) bal)
    as [labels [Hmask [Hlmask Hnmask]]]; [rewrite length_map; lia|].
  exists am, raw, bal, g', labels.
  split; [reflexivity|]. split; [reflexivity|]. split; [reflexivity|].
  split; [now exists rest, mrest|]. cbv zeta. fold anchors.
  split; [assumption|]. split; [assumption|].
  split; [assumption|]. split; [lia|]. split; [lia|]. split; [assumption|].
  split; [intros i Hi; now apply Hrow|].
  split.
  { apply (Forall_nth_lt _ 0%Z). intros i Hi. rewrite Hnraw by lia. cbv zeta.
    unfold ternary.
    destruct (clobber_positives self), (less (nth i mo 0%Q) (negative_overlap self)),
      (greater_equal (nth i mo 0%Q) (positive_overlap self) || existsb (Nat.eqb i) gta);
      auto. }
  split; [intros i Hi; destruct (Hptbal i) as [?|[_ ?]]; auto|].
  split; [lia|]. split; [lia|].
  split.
  - intros i Hi. rewrite Hnmask by lia.
    now rewrite (nth_map_lt _ _ (mkBox 0 0 0 0)) by assumption.
  - unfold call, label.
    cbn [item nth_error bind index0 shape data shape_at].
    fold gt. fold anchors. rewrite Hraw. cbn [bind]. rewrite Hbal. cbn [bind].
    rewrite (gather_ok _ []).
    2:{ intros j Hj. apply (In_nth _ _ 0) in Hj. destruct Hj as [i [Hi <-]].
        rewrite length_rows. change (dim gt 0) with (S m).
        apply Hrow. lia. }
    cbn [bind]. unfold reshape_rows4, bbox_transform. cbn [data].
    rewrite rows_boxes_tensor, length_box_rows.
    rewrite (Nat.mul_comm 4), Nat.Div0.mod_mul, Nat.div_mul by lia.
    cbn [Nat.eqb bind].
    rewrite inside_image_ok. cbn [bind]. rewrite Hmask. cbn [bind].
    unfold expand_dims0. cbn [shape data].
    rewrite !length_map, length_combine, !length_map, Ham, Nat.min_id, Hlmask, Hlbal, Hlraw.
    reflexivity.
Qed.

(** [call] returns only on well-formed inputs. *)
Lemma call_returns (self : AnchorTarget) (scores : list nat) (gt_boxes : tensor Q)
  (metadata : list (list Q)) (g : rng) r :
  call self scores gt_boxes metadata g = OK r ->
  well_formed self scores gt_boxes metadata = true.
Proof.
  unfold call. intros H.
  destruct metadata as [|md mrest]; [discriminate|].
  cbn [item nth_error bind] in H.
  destruct gt_boxes as [sh dat]. unfold index0 in H. cbn [shape data] in H.
  destruct sh as [|[|b] s]; try discriminate. cbn [bind] in H.
  destruct scores as [|s0 [|rr [|cc srest]]]; try discriminate.
  cbn [shape_at nth_error bind] in H.
  set (anchors := shift (rr, cc) (stride self)) in *.
  unfold label in H.
  destruct (label_raw _ _ _ _ _) as [[am raw]|] eqn:Er; [|discriminate].
  apply label_raw_returns in Er. destruct Er as [_ [Hg [HN HM]]].
  unfold ndim in Hg. unfold dim in HM. cbn [shape] in Hg, HM.
  destruct s as [|[|m] [|c [|? ?]]]; try discriminate; [cbn in HM; lia|].
  cbn [bind] in H.
  destruct (balance raw g) as [[bal g']|]; [|discriminate]. cbn [bind] in H.
  destruct (gather _ am) as [gt_rows|]; [|discriminate]. cbn [bind] in H.
  destruct (reshape_rows4 _) as [targets|]; [|discriminate]. cbn [bind] in H.
  destruct (inside_image _ md _) as [inds|] eqn:Ei; [|discriminate].
  unfold inside_image in Ei. rewrite !column_boxes_tensor in Ei by lia.
  cbn [bind] in Ei.
  destruct md as [|height [|width rest]]; try discriminate.
  unfold well_formed. cbn [shape]. fold anchors.
  apply negb_true_iff, Nat.eqb_neq.
  change (dim (boxes_tensor anchors) 0) with (length anchors) in HN. lia.
Qed.

(** ** Counting after the border mask *)

Lemma count_le_of_flips (v : Z) (l l' : list Z) :
  length l' = length l ->
  (forall i, i < length l -> nth i l' 0%Z = nth i l 0%Z \/ nth i l' 0%Z = (-1)%Z) ->
  v <> (-1)%Z ->
  count v l' <= count v l.
Proof.
  intros Hlen Hpt Hv. unfold count.
  apply NoDup_incl_length; [apply NoDup_where_equal|].
  intros i Hi. apply In_where_equal in Hi. destruct Hi as [Hi Hnth].
  apply In_where_equal. rewrite Hlen in Hi. split; [assumption|].
  destruct (Hpt i Hi); congruence.
Qed.

(** * The claims *)

(** C1. The background rule (label 0 where max_overlap < negative_overlap)
    runs before the force-positive and threshold-positive passes when
    [clobber_positives] is false and after both when it is true.  With
    [clobber_positives] true every anchor whose max_overlap is below
    negative_overlap ends the assignment pass with label 0, whatever the
    positive passes wrote; with [clobber_positives] false the anchors of
    highest overlap of the ground-truth boxes end it with label 1. *)
Theorem label_background_rule_order (y_true y_pred : tensor Q) (NEG POS : Q) :
  ndim y_pred = 2 -> ndim y_true = 2 ->
  0 < dim y_pred 0 -> 0 < dim y_true 0 ->
  exists am mo gta ones labels_f labels_t,
    overlapping y_pred y_true = OK (am, mo, gta) /\
    ones_like_first_column y_pred = OK ones /\
    let init := map (fun o => (o * -1)%Z) ones in
    let zeros := map (fun _ : Z => 0%Z) ones in
    (l1 <- assign_background mo NEG zeros init ;;
     l2 <- force_positive gta l1 ;;
     l3 <- threshold_positive mo POS ones l2 ;;
     OK (am, l3)) = OK (am, labels_f) /\
    label_raw y_true y_pred NEG POS false = OK (am, labels_f) /\
    (l1 <- force_positive gta init ;;
     l2 <- threshold_positive mo POS ones l1 ;;
     l3 <- assign_background mo NEG zeros l2 ;;
     OK (am, l3)) = OK (am, labels_t) /\
    label_raw y_true y_pred NEG POS true = OK (am, labels_t) /\
    (forall i, i < dim y_pred 0 -> (nth i mo 0 < NEG)%Q -> nth i labels_t 0%Z = 0%Z) /\
    (forall i, In i gta -> nth i labels_f 0%Z = 1%Z) /\
    (forall i, i < dim y_pred 0 -> (nth i mo 0 < NEG)%Q -> ~ In i gta ->
               (nth i mo 0 < POS)%Q -> nth i labels_f 0%Z = 0%Z).
Proof.
  intros Hp Ht HN HM.
  destruct (label_raw_ok y_true y_pred NEG POS false Hp Ht HN HM)
    as [am [mo [gta [labels_f [Hov [Hf [_ Hnf]]]]]]].
  destruct (label_raw_ok y_true y_pred NEG POS true Hp Ht HN HM)
    as [am' [mo' [gta' [labels_t [Hov' [Htr [_ Hnt]]]]]]].
  rewrite Hov in Hov'. injection Hov' as <- <- <-.
  destruct (overlapping_facts y_pred y_true Hp Ht HN HM)
    as [am' [mo' [gta' [Hov' [_ [_ [Hgta [_ Hcol]]]]]]]].
  rewrite Hov in Hov'. injection Hov' as <- <- <-.
  assert (Hones : ones_like_first_column y_pred = OK (repeat 1%Z (dim y_pred 0))).
  { unfold ones_like_first_column. now rewrite Hp. }
  exists am, mo, gta, (repeat 1%Z (dim y_pred 0)), labels_f, labels_t.
  split; [assumption|]. split; [assumption|]. cbv zeta.
  split; [|split; [assumption|split; [|split; [assumption|]]]].
  - rewrite <- Hf. unfold label_raw. rewrite Hones. cbn [bind].
    rewrite Hov. reflexivity.
  - rewrite <- Htr. unfold label_raw. rewrite Hones. cbn [bind].
    rewrite Hov. reflexivity.
  - split; [|split].
    + intros i Hi Hlt. rewrite Hnt by assumption. cbv zeta.
      apply less_lt in Hlt. now rewrite Hlt.
    + intros i Hi. assert (HiN : i < dim y_pred 0).
      { apply (In_nth _ _ 0) in Hi. destruct Hi as [j [Hj <-]].
        rewrite Hgta in Hj. now apply Hcol. }
      rewrite Hnf by assumption. cbv zeta.
      apply existsb_eqb_In in Hi. rewrite Hi, orb_true_r. reflexivity.
    + intros i Hi Hlt Hnin Hpos. rewrite Hnf by assumption. cbv zeta.
      apply less_lt in Hlt as Hb. rewrite Hb.
      destruct (existsb (Nat.eqb i) gta) eqn:E;
        [apply existsb_eqb_In in E; contradiction|].
      rewrite orb_false_r.
      destruct (greater_equal (nth i mo 0%Q) POS) eqn:Eg; [|reflexivity].
      apply greater_equal_le in Eg. exfalso. exact (Qlt_not_le _ _ Hpos Eg).
Qed.

(** C2. For a non-empty ground-truth set, after the force-positive pass the
    anchor of maximal overlap with each ground-truth box (the one of lowest
    index among ties, as argmax over axis 0 returns it) has label 1, whatever
    the overlap is and whatever label it had; so each ground-truth box has an
    anchor labelled 1 at that point. *)
Theorem force_positive_marks_every_box (y_true y_pred : tensor Q) :
  ndim y_pred = 2 -> ndim y_true = 2 ->
  0 < dim y_pred 0 -> 0 < dim y_true 0 ->
  exists am mo gta,
    overlapping y_pred y_true = OK (am, mo, gta) /\
    length gta = dim y_true 0 /\
    forall labels : list Z,
      length labels = dim y_pred 0 ->
      exists l,
        force_positive gta labels = OK l /\
        length l = dim y_pred 0 /\
        forall j, j < dim y_true 0 ->
          let i := nth j gta 0 in
          i < dim y_pred 0 /\
          (forall k, k < dim y_pred 0 ->
                     (overlap_at y_pred y_true k j <= overlap_at y_pred y_true i j)%Q) /\
          (forall k, k < i ->
                     (overlap_at y_pred y_true k j < overlap_at y_pred y_true i j)%Q) /\
          nth i l 0%Z = 1%Z.
Proof.
  intros Hp Ht HN HM.
  destruct (overlapping_facts y_pred y_true Hp Ht HN HM)
    as [am [mo [gta [Hov [_ [_ [Hgta [_ Hcol]]]]]]]].
  exists am, mo, gta. split; [assumption|]. split; [assumption|].
  intros labels Hlen.
  destruct (force_positive_ok gta labels) as [l [Hl [Hlen' Hnth]]].
  { intros i Hi. apply (In_nth _ _ 0) in Hi. destruct Hi as [j [Hj <-]].
    rewrite Hgta in Hj. rewrite Hlen. now apply Hcol. }
  exists l. split; [assumption|]. split; [congruence|].
  intros j Hj. cbv zeta. destruct (Hcol j Hj) as [H1 [H2 H3]].
  split; [assumption|]. split; [assumption|]. split; [assumption|].
  rewrite Hnth.
  assert (Hin : In (nth j gta 0) gta) by (apply nth_In; lia).
  apply existsb_eqb_In in Hin. now rewrite Hin.
Qed.

(** C10. When several ground-truth boxes share their anchor of highest
    overlap, the force-positive pass makes the anchor indices unique before
    the scatter-add: each anchor receives the update [-label + 1] once, its
    label becomes exactly 1, the other labels are untouched, and labels in
    {-1, 0, 1} stay in {-1, 0, 1}. *)
Theorem force_positive_deduplicates (gt_argmax_overlaps_inds : list nat)
  (labels : list Z) :
  (forall i, In i gt_argmax_overlaps_inds -> i < length labels) ->
  NoDup (unique gt_argmax_overlaps_inds) /\
  (forall i, In i (unique gt_argmax_overlaps_inds) <-> In i gt_argmax_overlaps_inds) /\
  exists l,
    force_positive gt_argmax_overlaps_inds labels = OK l /\
    length l = length labels /\
    (forall i, In i gt_argmax_overlaps_inds -> nth i l 0%Z = 1%Z) /\
    (forall j, ~ In j gt_argmax_overlaps_inds -> nth j l 0%Z = nth j labels 0%Z) /\
    (Forall ternary labels -> Forall ternary l).
Proof.
  intros Hin. split; [apply NoDup_unique|]. split; [apply In_unique|].
  destruct (force_positive_ok gt_argmax_overlaps_inds labels Hin)
    as [l [Hl [Hlen Hnth]]].
  exists l. split; [assumption|]. split; [assumption|]. split; [|split].
  - intros i Hi. rewrite Hnth. apply existsb_eqb_In in Hi. now rewrite Hi.
  - intros j Hj. rewrite Hnth.
    destruct (existsb (Nat.eqb j) gt_argmax_overlaps_inds) eqn:E; [|reflexivity].
    apply existsb_eqb_In in E. contradiction.
  - intros Ht. apply (Forall_nth_lt _ 0%Z). intros j Hj. rewrite Hnth.
    destruct (existsb (Nat.eqb j) gt_argmax_overlaps_inds).
    + right. now right.
    + apply Forall_nth_at; [assumption|lia].
Qed.

(** C3. The balance sampler first subsamples the positives, so that at most
    floor(F x T) = 128 anchors keep label 1 and the excess becomes -1; the
    background quota is then T minus the positives that remain, and the excess
    background becomes -1.  After balancing count(1) <= 128 and
    count(1) + count(0) <= T = 256, and a class at or under its quota is left
    as it was. *)
Theorem balance_quotas (labels : list Z) (g : rng) :
  int (RPN_FG_FRACTION * inject_Z RPN_BATCHSIZE)%Q = 128%Z /\
  RPN_BATCHSIZE = 256%Z /\
  exists l1 g1 l g',
    subsample_positive_labels labels g = OK (l1, g1) /\
    subsample_negative_labels l1 g1 = OK (l, g') /\
    balance labels g = OK (l, g') /\
    count 1 l1 = Nat.min (count 1 labels) 128 /\
    count 0 l1 = count 0 labels /\
    count 1 l = count 1 l1 /\
    count 0 l = Nat.min (count 0 l1) (256 - count 1 l1) /\
    length l = length labels /\
    (Z.of_nat (count 1 l) <= int (RPN_FG_FRACTION * inject_Z RPN_BATCHSIZE)%Q)%Z /\
    (Z.of_nat (count 1 l + count 0 l) <= RPN_BATCHSIZE)%Z /\
    (count 1 labels <= 128 -> l1 = labels) /\
    (count 0 l1 <= 256 - count 1 l1 -> l = l1) /\
    (forall j, nth j l 0%Z = nth j labels 0%Z \/
               ((nth j labels 0%Z = 1%Z \/ nth j labels 0%Z = 0%Z) /\
                nth j l 0%Z = (-1)%Z)).
Proof.
  split; [reflexivity|]. split; [reflexivity|].
  destruct (subsample_positive_ok labels g)
    as [l1 [g1 [H1 [Hlen1 [Hfg1 [Hbg1 [Hsame1 Hpt1]]]]]]].
  destruct (subsample_negative_ok l1 g1)
    as [l2 [g2 [H2 [Hlen2 [Hbg2 [Hfg2 [Hsame2 Hpt2]]]]]]]; [lia|].
  assert (Hc1 : count 1 l2 = count 1 l1) by (unfold count; now rewrite Hfg2).
  assert (Hc0 : count 0 l1 = count 0 labels) by (unfold count; now rewrite Hbg1).
  exists l1, g1, l2, g2.
  split; [assumption|]. split; [assumption|]. split.
  { unfold balance. rewrite H1. exact H2. }
  split; [assumption|]. split; [assumption|]. split; [assumption|].
  split; [assumption|]. split; [congruence|].
  rewrite num_fg_value. unfold RPN_BATCHSIZE.
  split; [lia|]. split; [lia|]. split; [assumption|]. split; [assumption|].
  intros j. destruct (Hpt2 j) as [E2|[E2 E2']], (Hpt1 j) as [E1|[E1 E1']].
  - left. congruence.
  - right. split; [now left|congruence].
  - right. split; [right; congruence|assumption].
  - congruence.
Qed.

(** C9, as the code has it.  When the anchor array or the ground-truth array
    is not 2-D the computation fails before the overlap matrix is computed,
    but not with a descriptive error at the entry point: the precondition
    check is the pair of asserts at the head of the helper [overlapping],
    which raises an assertion error that carries no message.  [label] fails
    with that assertion error, or, when the anchors have rank below 2, with a
    slice error at [y_pred[:, :1]] before the check is reached.  [call]
    returns nothing for a ground-truth batch of rank other than 3, and raises
    that assertion error once its own indexing of the inputs has succeeded. *)
Theorem overlapping_rejects_other_ranks (y_true y_pred : tensor Q) (NEG POS : Q)
  (clobber : bool) (g : rng) :
  ndim y_pred <> 2 \/ ndim y_true <> 2 ->
  overlapping y_pred y_true = Error AssertionError /\
  (exists e, label_raw y_true y_pred NEG POS clobber = Error e /\
             (e = AssertionError \/ (e = SliceError /\ ndim y_pred < 2))) /\
  (exists e, label y_true y_pred NEG POS clobber g = Error e) /\
  (forall (self : AnchorTarget) (scores : list nat) (gt_boxes : tensor Q)
          (metadata : list (list Q)),
      ndim gt_boxes <> 3 ->
      forall r, call self scores gt_boxes metadata g <> OK r) /\
  has_message AssertionError = false /\
  (ndim y_pred < 2 ->
   label_raw y_true y_pred NEG POS clobber = Error SliceError /\
   label y_true y_pred NEG POS clobber g = Error SliceError) /\
  (2 <= ndim y_pred ->
   label_raw y_true y_pred NEG POS clobber = Error AssertionError /\
   label y_true y_pred NEG POS clobber g = Error AssertionError) /\
  (forall (self : AnchorTarget) (scores : list nat) (gt_boxes : tensor Q)
          (metadata : list (list Q)) md mrest b s s0 rr cc srest,
      metadata = md :: mrest ->
      shape gt_boxes = S b :: s -> length s <> 2 ->
      scores = s0 :: rr :: cc :: srest ->
      call self scores gt_boxes metadata g = Error AssertionError).
Proof.
  intros H.
  assert (Hov : overlapping y_pred y_true = Error AssertionError).
  { unfold overlapping, assert.
    destruct (ndim y_pred =? 2) eqn:Ep; [|reflexivity].
    destruct (ndim y_true =? 2) eqn:Et; [|reflexivity].
    apply Nat.eqb_eq in Ep, Et. tauto. }
  assert (Hlow : ndim y_pred < 2 ->
                 label_raw y_true y_pred NEG POS clobber = Error SliceError).
  { intros E. apply Nat.ltb_lt in E.
    unfold label_raw, ones_like_first_column. now rewrite E. }
  assert (Hhigh : 2 <= ndim y_pred ->
                  label_raw y_true y_pred NEG POS clobber = Error AssertionError).
  { intros E. apply Nat.ltb_ge in E.
    unfold label_raw, ones_like_first_column. rewrite E. cbn [bind].
    now rewrite Hov. }
  assert (Hraw : exists e, label_raw y_true y_pred NEG POS clobber = Error e /\
                           (e = AssertionError \/ (e = SliceError /\ ndim y_pred < 2))).
  { destruct (Nat.lt_ge_cases (ndim y_pred) 2) as [E|E].
    - exists SliceError. split; [now apply Hlow|now right].
    - exists AssertionError. split; [now apply Hhigh|now left]. }
  split; [assumption|]. split; [assumption|]. split.
  { destruct Hraw as [e [He _]]. exists e. unfold label. now rewrite He. }
  split.
  { intros self scores gt_boxes metadata Hnd r Hr.
    apply call_returns in Hr. unfold well_formed in Hr. unfold ndim in Hnd.
    destruct metadata as [|[|? [|? ?]] ?]; try discriminate.
    destruct (shape gt_boxes) as [|[|?] [|[|?] [|? [|? ?]]]]; try discriminate.
    now apply Hnd. }
  split; [reflexivity|]. split; [|split].
  - intros E. split; [now apply Hlow|]. unfold label. now rewrite (Hlow E).
  - intros E. split; [now apply Hhigh|]. unfold label. now rewrite (Hhigh E).
  - intros self scores gt_boxes metadata md mrest b s s0 rr cc srest
           -> Hshape Hrank ->.
    destruct gt_boxes as [sh dat]. cbn [shape] in Hshape. subst sh.
    unfold call. cbn [item nth_error bind index0 shape data shape_at].
    unfold label, label_raw, ones_like_first_column.
    change (ndim (boxes_tensor (shift (rr, cc) (stride self))) <? 2) with false.
    cbn [bind]. unfold overlapping, assert.
    change (ndim (boxes_tensor (shift (rr, cc) (stride self))) =? 2) with true.
    cbn [bind]. unfold ndim. cbn [shape].
    destruct (length s =? 2) eqn:E; [apply Nat.eqb_eq in E; contradiction|].
    reflexivity.
Qed.

(** C8, as the code has it.  With an empty ground-truth set the label
    assignment returns no labels: on 2-D inputs the argmax over the empty
    axis fails.  [label] returns exactly on 2-D inputs that hold at least one
    anchor and one ground-truth box. *)
Theorem label_needs_ground_truth (y_true y_pred : tensor Q) (NEG POS : Q)
  (clobber : bool) (g : rng) :
  (dim y_true 0 = 0 -> ndim y_pred = 2 -> ndim y_true = 2 ->
   label y_true y_pred NEG POS clobber g = Error EmptyReduction) /\
  (dim y_true 0 = 0 -> forall r, label y_true y_pred NEG POS clobber g <> OK r) /\
  ((exists r, label y_true y_pred NEG POS clobber g = OK r) <->
   ndim y_pred = 2 /\ ndim y_true = 2 /\ 0 < dim y_pred 0 /\ 0 < dim y_true 0).
Proof.
  assert (Hret : forall r, label y_true y_pred NEG POS clobber g = OK r ->
            ndim y_pred = 2 /\ ndim y_true = 2 /\ 0 < dim y_pred 0 /\ 0 < dim y_true 0).
  { intros r Hr. unfold label in Hr.
    destruct (label_raw y_true y_pred NEG POS clobber) as [raw|] eqn:E;
      [|discriminate].
    now apply label_raw_returns in E. }
  split; [|split; [|split]].
  - intros HM Hp Ht. unfold label, label_raw, ones_like_first_column.
    rewrite Hp. change (2 <? 2) with false. cbn [bind].
    unfold overlapping, assert. rewrite Hp, Ht. cbn [Nat.eqb bind].
    unfold argmax_axis0, argmax_axis1.
    change (nrows (overlap y_pred y_true)) with (dim y_pred 0).
    change (ncols (overlap y_pred y_true)) with (dim y_true 0).
    rewrite HM. destruct (dim y_pred 0 =? 0); reflexivity.
  - intros HM r Hr. apply Hret in Hr. lia.
  - intros [r Hr]. now apply Hret in Hr.
  - intros [Hp [Ht [HN HM]]].
    destruct (label_raw_ok y_true y_pred NEG POS clobber Hp Ht HN HM)
      as [am [mo [gta [raw [_ [Hraw _]]]]]].
    destruct (balance_ok raw g) as [bal [g' [Hbal _]]].
    exists (am, bal, g'). unfold label. rewrite Hraw. cbn [bind].
    rewrite Hbal. reflexivity.
Qed.


(** C6. Every label [call] returns is one of -1, 0, 1; the label array has
    shape (1, N) and the target array shape (1, N, 4) for N anchors; the labels
    have length N and values in {-1, 0, 1} after the assignment pass, after
    balancing and after the border filter.  [call] returns on every
    well-formed input. *)
Theorem labels_ternary_and_lengths (self : AnchorTarget) (scores : list nat)
  (gt_boxes : tensor Q) (metadata : list (list Q)) (g : rng) :
  (well_formed self scores gt_boxes metadata = true ->
   exists r, call self scores gt_boxes metadata g = OK r) /\
  forall L T g',
    call self scores gt_boxes metadata g = OK (L, T, g') ->
    exists rr cc gt am raw balanced,
      shape_at scores 1 = OK rr /\ shape_at scores 2 = OK cc /\
      index0 gt_boxes = OK gt /\
      let anchors := shift (rr, cc) (stride self) in
      let N := length anchors in
      label_raw gt (boxes_tensor anchors) (negative_overlap self)
        (positive_overlap self) (clobber_positives self) = OK (am, raw) /\
      balance raw g = OK (balanced, g') /\
      length raw = N /\ Forall ternary raw /\
      length balanced = N /\ Forall ternary balanced /\
      shape L = [1; N] /\ length (data L) = N /\ Forall ternary (data L) /\
      shape T = [1; N; 4] /\ length (data T) = 4 * N.
Proof.
  split.
  - intros Hwf.
    destruct (call_ok self scores gt_boxes metadata g Hwf)
      as (rr & cc & gt & height & width & am & raw & bal & g' & labels & H).
    eexists. apply H.
  - intros L T g1 Hcall.
    pose proof (call_returns _ _ _ _ _ _ Hcall) as Hwf.
    destruct (call_ok self scores gt_boxes metadata g Hwf)
      as (rr & cc & gt & height & width & am & raw & bal & g' & labels &
          Hrr & Hcc & Hgt & _ & H).
    cbv zeta in H.
    destruct H as (Hraw & Hbal & Hlraw & Hlbal & Hllab & Ham & _ & Htraw &
                   Hptbal & _ & _ & Hmask & Hcall').
    rewrite Hcall in Hcall'. injection Hcall' as -> -> ->.
    exists rr, cc, gt, am, raw, bal.
    split; [assumption|]. split; [assumption|]. split; [assumption|]. cbv zeta.
    split; [assumption|]. split; [assumption|].
    split; [assumption|]. split; [assumption|]. split; [assumption|].
    assert (Htbal : Forall ternary bal).
    { apply (Forall_nth_lt _ 0%Z). intros i Hi. rewrite Hlbal in Hi.
      destruct (Hptbal i Hi) as [E|E]; rewrite E.
      - apply Forall_nth_at; [assumption|lia].
      - now left. }
    split; [assumption|]. cbn [shape data].
    split; [reflexivity|]. split; [assumption|]. split.
    + apply (Forall_nth_lt _ 0%Z). intros i Hi. rewrite Hllab in Hi.
      rewrite Hmask by assumption.
      destruct (inside_box _ _ _ _).
      * apply Forall_nth_at; [assumption|lia].
      * now left.
    + split; [reflexivity|].
      rewrite length_box_rows, length_map, length_combine, !length_map, Ham.
      now rewrite Nat.min_id.
Qed.

(** C7. The border filter changes labels only.  The targets [call] returns are
    the deltas of every anchor against the ground-truth box its argmax
    selects, whatever the anchor's label, and they are the same for every
    border tolerance and every image metadata. *)
Theorem border_filter_leaves_targets (self : AnchorTarget) (scores : list nat)
  (gt_boxes : tensor Q) (metadata : list (list Q)) (g : rng)
  (L : tensor Z) (T : tensor Q) (g' : rng) :
  call self scores gt_boxes metadata g = OK (L, T, g') ->
  (exists rr cc gt am raw,
     shape_at scores 1 = OK rr /\ shape_at scores 2 = OK cc /\
     index0 gt_boxes = OK gt /\
     let anchors := shift (rr, cc) (stride self) in
     label_raw gt (boxes_tensor anchors) (negative_overlap self)
       (positive_overlap self) (clobber_positives self) = OK (am, raw) /\
     length am = length anchors /\
     (forall i, i < length anchors -> nth i am 0 < dim gt 0) /\
     shape T = [1; length anchors; 4] /\
     data T =
     flat_map box_row
       (map (fun p => bbox_delta (fst p) (snd p))
          (combine (map box_row anchors) (map (fun j => nth j (rows gt) []) am)))) /\
  forall (border' : Q) (metadata' : list (list Q)) (g2 : rng)
         (L' : tensor Z) (T' : tensor Q) (g2' : rng),
    call (with_allowed_border self border') scores gt_boxes metadata' g2 =
      OK (L', T', g2') ->
    T' = T.
Proof.
  intros Hcall.
  pose proof (call_returns _ _ _ _ _ _ Hcall) as Hwf.
  destruct (call_ok self scores gt_boxes metadata g Hwf)
    as (rr & cc & gt & height & width & am & raw & bal & g1 & labels &
        Hrr & Hcc & Hgt & _ & H).
  cbv zeta in H.
  destruct H as (Hraw & _ & _ & _ & _ & Ham & Hrange & _ & _ & _ & _ & _ & Hcall').
  rewrite Hcall in Hcall'. injection Hcall' as -> -> ->.
  split.
  - exists rr, cc, gt, am, raw.
    split; [assumption|]. split; [assumption|]. split; [assumption|]. cbv zeta.
    split; [assumption|]. split; [assumption|]. split; [assumption|].
    split; reflexivity.
  - intros border' metadata' g2 L' T' g2' Hcall2.
    pose proof (call_returns _ _ _ _ _ _ Hcall2) as Hwf2.
    destruct (call_ok _ scores gt_boxes metadata' g2 Hwf2)
      as (rr2 & cc2 & gt2 & height2 & width2 & am2 & raw2 & bal2 & g3 & labels2 &
          Hrr2 & Hcc2 & Hgt2 & _ & H2).
    cbv zeta in H2.
    destruct H2 as (Hraw2 & _ & _ & _ & _ & _ & _ & _ & _ & _ & _ & _ & Hcall2').
    rewrite Hcall2 in Hcall2'. injection Hcall2' as -> -> ->.
    rewrite Hrr in Hrr2. injection Hrr2 as <-.
    rewrite Hcc in Hcc2. injection Hcc2 as <-.
    rewrite Hgt in Hgt2. injection Hgt2 as <-.
    cbn [with_allowed_border stride negative_overlap positive_overlap
           clobber_positives] in Hraw2.
    rewrite Hraw in Hraw2. injection Hraw2 as <- <-.
    reflexivity.
Qed.

(** The border filter runs on the balanced labels of the whole anchor set:
    [call] returns the labels [balance] produced from every anchor, with -1
    written outside the border, so no class gains members by the filter. *)
Lemma call_masks_balanced (self : AnchorTarget) (scores : list nat)
  (gt_boxes : tensor Q) (metadata : list (list Q)) (g : rng) :
  well_formed self scores gt_boxes metadata = true ->
  exists rr cc gt height width am raw balanced L T g',
    shape_at scores 1 = OK rr /\ shape_at scores 2 = OK cc /\
    index0 gt_boxes = OK gt /\
    (exists rest mrest, metadata = (height :: width :: rest) :: mrest) /\
    let anchors := shift (rr, cc) (stride self) in
    label_raw gt (boxes_tensor anchors) (negative_overlap self)
      (positive_overlap self) (clobber_positives self) = OK (am, raw) /\
    length raw = length anchors /\
    balance raw g = OK (balanced, g') /\
    call self scores gt_boxes metadata g = OK (L, T, g') /\
    (forall i, i < length anchors ->
       nth i (data L) 0%Z =
       if inside_box width height (allowed_border self)
            (nth i anchors (mkBox 0 0 0 0))
       then nth i balanced 0%Z else (-1)%Z) /\
    count 1 balanced <= 128 /\ count 1 balanced + count 0 balanced <= 256 /\
    count 1 (data L) <= count 1 balanced /\
    count 0 (data L) <= count 0 balanced.
Proof.
  intros Hwf.
  destruct (call_ok self scores gt_boxes metadata g Hwf)
    as (rr & cc & gt & height & width & am & raw & bal & g' & labels &
        Hrr & Hcc & Hgt & Hmd & H).
  cbv zeta in H.
  destruct H as (Hraw & Hbal & Hlraw & Hlbal & Hllab & _ & _ & _ & _ &
                 Hfg & Hall & Hmask & Hcall).
  eexists rr, cc, gt, height, width, am, raw, bal, _, _, g'.
  split; [assumption|]. split; [assumption|]. split; [assumption|].
  split; [assumption|]. cbv zeta.
  split; [assumption|]. split; [assumption|]. split; [assumption|].
  split; [exact Hcall|]. cbn [data].
  split; [assumption|]. split; [assumption|]. split; [assumption|].
  assert (Hflip : forall i, i < length bal ->
            nth i labels 0%Z = nth i bal 0%Z \/ nth i labels 0%Z = (-1)%Z).
  { intros i Hi. rewrite Hmask by lia. destruct (inside_box _ _ _ _); auto. }
  split; apply count_le_of_flips; auto; lia.
Qed.

(** * Further properties of the label assigner *)

(** X1. On 2-D inputs with at least one anchor and one ground-truth box,
    [overlapping] returns for every anchor the ground-truth box of maximal
    overlap, the first one among ties, and that overlap as its
    [max_overlaps] entry. *)
Theorem overlapping_anchor_matches (anchors gt_boxes : tensor Q) :
  ndim anchors = 2 -> ndim gt_boxes = 2 ->
  0 < dim anchors 0 -> 0 < dim gt_boxes 0 ->
  exists am mo gta,
    overlapping anchors gt_boxes = OK (am, mo, gta) /\
    length am = dim anchors 0 /\ length mo = dim anchors 0 /\
    forall i, i < dim anchors 0 ->
      nth i am 0 < dim gt_boxes 0 /\
      nth i mo 0%Q = overlap_at anchors gt_boxes i (nth i am 0) /\
      (forall k, k < dim gt_boxes 0 ->
                 (overlap_at anchors gt_boxes i k <= nth i mo 0)%Q) /\
      (forall k, k < nth i am 0 ->
                 (overlap_at anchors gt_boxes i k < nth i mo 0)%Q).
Proof.
  intros Ha Hg HN HM.
  destruct (overlapping_facts anchors gt_boxes Ha Hg HN HM)
    as (am & mo & gta & Hov & Ham & Hmo & _ & Hrow & _).
  exists am, mo, gta. split; [assumption|]. split; [assumption|].
  split; [assumption|].
  intros i Hi. destruct (Hrow i Hi) as (H1 & H2 & H3 & H4).
  split; [assumption|]. split; [assumption|]. rewrite H2. split; assumption.
Qed.

(** X2. On 2-D inputs [overlapping] raises the empty-reduction error of
    argmax when there is no anchor or no ground-truth box, and returns
    otherwise: it has no result for an empty anchor set either. *)
Theorem overlapping_empty_axis (anchors gt_boxes : tensor Q) :
  ndim anchors = 2 -> ndim gt_boxes = 2 ->
  (dim anchors 0 = 0 \/ dim gt_boxes 0 = 0 ->
   overlapping anchors gt_boxes = Error EmptyReduction) /\
  ((exists r, overlapping anchors gt_boxes = OK r) <->
   0 < dim anchors 0 /\ 0 < dim gt_boxes 0).
Proof.
  intros Ha Hg. split; [|split].
  - intros Hempty. unfold overlapping, assert. rewrite Ha, Hg. cbn [Nat.eqb bind].
    unfold argmax_axis0, argmax_axis1.
    change (nrows (overlap anchors gt_boxes)) with (dim anchors 0).
    change (ncols (overlap anchors gt_boxes)) with (dim gt_boxes 0).
    destruct (dim anchors 0 =? 0) eqn:EN; [reflexivity|]. cbn [bind].
    destruct (dim gt_boxes 0 =? 0) eqn:EM; [reflexivity|].
    apply Nat.eqb_neq in EN, EM. lia.
  - intros [r Hr]. apply overlapping_returns in Hr. tauto.
  - intros [HN HM]. eexists. apply (overlapping_ok anchors gt_boxes Ha Hg HN HM).
Qed.

Lemma positive_reflect (POS o : Q) (i : nat) (gta : list nat) :
  greater_equal o POS || existsb (Nat.eqb i) gta = true <->
  (POS <= o)%Q \/ In i gta.
Proof.
  now rewrite orb_true_iff, greater_equal_le, existsb_eqb_In.
Qed.

(** X3. The labels before balancing, case by case.  An anchor is positive
    when its max_overlap reaches positive_overlap or it is the best anchor of
    a ground-truth box, negative when its max_overlap is below
    negative_overlap.  Its label is 1 iff it is positive (and not negative
    when [clobber_positives] is set), 0 iff it is negative (and not positive
    when [clobber_positives] is not set), and -1 iff it is neither. *)
Theorem raw_label_cases (y_true y_pred : tensor Q) (NEG POS : Q) (clobber : bool) :
  ndim y_pred = 2 -> ndim y_true = 2 ->
  0 < dim y_pred 0 -> 0 < dim y_true 0 ->
  exists am mo gta labels,
    overlapping y_pred y_true = OK (am, mo, gta) /\
    label_raw y_true y_pred NEG POS clobber = OK (am, labels) /\
    length labels = dim y_pred 0 /\
    forall i, i < dim y_pred 0 ->
      (nth i labels 0%Z = 1%Z <->
       ((POS <= nth i mo 0)%Q \/ In i gta) /\
       (clobber = true -> ~ (nth i mo 0 < NEG)%Q)) /\
      (nth i labels 0%Z = 0%Z <->
       (nth i mo 0 < NEG)%Q /\
       (clobber = false -> ~ ((POS <= nth i mo 0)%Q \/ In i gta))) /\
      (nth i labels 0%Z = (-1)%Z <->
       ~ ((POS <= nth i mo 0)%Q \/ In i gta) /\ ~ (nth i mo 0 < NEG)%Q).
Proof.
  intros Hp Ht HN HM.
  destruct (label_raw_ok y_true y_pred NEG POS clobber Hp Ht HN HM)
    as (am & mo & gta & labels & Hov & Hraw & Hlen & Hnth).
  exists am, mo, gta, labels.
  split; [assumption|]. split; [assumption|]. split; [assumption|].
  intros i Hi. rewrite (Hnth i Hi). cbv zeta.
  pose proof (positive_reflect POS (nth i mo 0%Q) i gta) as Hfg.
  pose proof (less_lt (nth i mo 0%Q) NEG) as Hbg.
  destruct (greater_equal (nth i mo 0%Q) POS || existsb (Nat.eqb i) gta);
    destruct (less (nth i mo 0%Q) NEG); destruct clobber;
    repeat split; intros; try discriminate; try tauto;
    try (exfalso; intuition discriminate);
    try (intuition discriminate).
Qed.

(** X4. [clobber_positives] decides the label of an anchor only where the
    positive and the negative condition hold together: there the label is 1
    without the flag and 0 with it, and everywhere else both settings give
    the same label. *)
Theorem clobber_decides_conflicts_only (y_true y_pred : tensor Q) (NEG POS : Q) :
  ndim y_pred = 2 -> ndim y_true = 2 ->
  0 < dim y_pred 0 -> 0 < dim y_true 0 ->
  exists am mo gta labels_f labels_t,
    overlapping y_pred y_true = OK (am, mo, gta) /\
    label_raw y_true y_pred NEG POS false = OK (am, labels_f) /\
    label_raw y_true y_pred NEG POS true = OK (am, labels_t) /\
    forall i, i < dim y_pred 0 ->
      (nth i labels_f 0%Z <> nth i labels_t 0%Z <->
       (nth i mo 0 < NEG)%Q /\ ((POS <= nth i mo 0)%Q \/ In i gta)) /\
      (nth i labels_f 0%Z <> nth i labels_t 0%Z ->
       nth i labels_f 0%Z = 1%Z /\ nth i labels_t 0%Z = 0%Z).
Proof.
  intros Hp Ht HN HM.
  destruct (label_raw_ok y_true y_pred NEG POS false Hp Ht HN HM)
    as (am & mo & gta & labels_f & Hov & Hf & _ & Hnf).
  destruct (label_raw_ok y_true y_pred NEG POS true Hp Ht HN HM)
    as (am' & mo' & gta' & labels_t & Hov' & Htr & _ & Hnt).
  rewrite Hov in Hov'. injection Hov' as <- <- <-.
  exists am, mo, gta, labels_f, labels_t.
  split; [assumption|]. split; [assumption|]. split; [assumption|].
  intros i Hi. rewrite (Hnf i Hi), (Hnt i Hi). cbv zeta.
  pose proof (positive_reflect POS (nth i mo 0%Q) i gta) as Hfg.
  pose proof (less_lt (nth i mo 0%Q) NEG) as Hbg.
  destruct (greater_equal (nth i mo 0%Q) POS || existsb (Nat.eqb i) gta);
    destruct (less (nth i mo 0%Q) NEG);
    repeat split; intros; try discriminate; try tauto;
    try (exfalso; intuition discriminate);
    try (intuition discriminate).
Qed.

(** X5. The matches [label] returns do not depend on the thresholds, on
    [clobber_positives] or on the random generator: they are the row-wise
    argmax of the overlap matrix, one per anchor, each a valid index of a
    ground-truth box. *)
Theorem label_matches_ignore_thresholds (y_true y_pred : tensor Q)
  (NEG POS NEG' POS' : Q) (clobber clobber' : bool) (g g2 : rng)
  (am am' : list nat) (labels labels' : list Z) (g1 g1' : rng) :
  label y_true y_pred NEG POS clobber g = OK (am, labels, g1) ->
  label y_true y_pred NEG' POS' clobber' g2 = OK (am', labels', g1') ->
  am' = am /\
  length am = dim y_pred 0 /\
  (forall i, In i am -> i < dim y_true 0) /\
  (exists mo gta, overlapping y_pred y_true = OK (am, mo, gta)).
Proof.
  intros H1 H2. unfold label in H1, H2.
  destruct (label_raw y_true y_pred NEG POS clobber) as [[a raw]|] eqn:E1;
    [|discriminate].
  destruct (label_raw y_true y_pred NEG' POS' clobber') as [[a' raw']|] eqn:E2;
    [|discriminate].
  cbn [bind] in H1, H2.
  destruct (balance raw g) as [[l gg]|]; [|discriminate].
  destruct (balance raw' g2) as [[l' gg']|]; [|discriminate].
  cbn [bind] in H1, H2. injection H1 as -> _ _. injection H2 as -> _ _.
  pose proof (label_raw_returns _ _ _ _ _ _ E1) as (Hp & Ht & HN & HM).
  destruct (label_raw_ok y_true y_pred NEG POS clobber Hp Ht HN HM)
    as (a1 & mo & gta & l1 & Hov & Hraw & _).
  destruct (label_raw_ok y_true y_pred NEG' POS' clobber' Hp Ht HN HM)
    as (a2 & mo2 & gta2 & l2 & Hov2 & Hraw2 & _).
  rewrite E1 in Hraw. injection Hraw as <- _.
  rewrite E2 in Hraw2. injection Hraw2 as <- _.
  rewrite Hov in Hov2. injection Hov2 as <- _ _.
  destruct (overlapping_facts y_pred y_true Hp Ht HN HM)
    as (a3 & mo3 & gta3 & Hov3 & Ham & _ & _ & Hrow & _).
  rewrite Hov in Hov3. injection Hov3 as <- <- <-.
  split; [reflexivity|]. split; [assumption|]. split.
  - intros i Hi. apply (In_nth _ _ 0) in Hi. destruct Hi as [k [Hk <-]].
    rewrite Ham in Hk. now apply Hrow.
  - now exists mo, gta.
Qed.

(** * Further properties of the balance sampler *)

Lemma subsample_positive_within (labels : list Z) (g : rng) :
  count 1 labels <= 128 ->
  subsample_positive_labels labels g = OK (labels, g).
Proof.
  intros H. unfold subsample_positive_labels. rewrite num_fg_value.
  fold (count 1 labels).
  destruct (Z.of_nat (count 1 labels) - 128 <=? 0)%Z eqn:E; [reflexivity|].
  apply Z.leb_gt in E. lia.
Qed.

Lemma subsample_negative_within (labels : list Z) (g : rng) :
  count 1 labels + count 0 labels <= 256 ->
  subsample_negative_labels labels g = OK (labels, g).
Proof.
  intros H. unfold subsample_negative_labels, RPN_BATCHSIZE.
  fold (count 1 labels). fold (count 0 labels).
  destruct (Z.of_nat (count 0 labels) - (256 - Z.of_nat (count 1 labels)) <=? 0)%Z
    eqn:E; [reflexivity|].
  apply Z.leb_gt in E. lia.
Qed.

Lemma balance_within_quota (labels : list Z) (g : rng) :
  count 1 labels <= 128 -> count 1 labels + count 0 labels <= 256 ->
  balance labels g = OK (labels, g).
Proof.
  intros H1 H0. unfold balance.
  rewrite subsample_positive_within by assumption. cbn [bind].
  now apply subsample_negative_within.
Qed.

(** X6. [balance] returns its argument unchanged exactly when both quotas are
    met, that is when there are at most 128 positives and at most 256
    positives and negatives together; it then draws no shuffle and returns
    the generator state it was given. *)
Theorem balance_identity_iff (labels : list Z) (g : rng) :
  ((exists g', balance labels g = OK (labels, g')) <->
   count 1 labels <= 128 /\ count 1 labels + count 0 labels <= 256) /\
  (count 1 labels <= 128 -> count 1 labels + count 0 labels <= 256 ->
   balance labels g = OK (labels, g)).
Proof.
  split; [split|].
  - intros [g' Hb].
    destruct (balance_ok labels g) as (l & g2 & Hl & _ & Hfg & Hbg & _).
    rewrite Hb in Hl. injection Hl as <- <-. lia.
  - intros [H1 H0]. exists g. now apply balance_within_quota.
  - apply balance_within_quota.
Qed.

(** X7. [balance] is idempotent: balancing balanced labels changes nothing
    and draws no shuffle. *)
Theorem balance_idempotent (labels l : list Z) (g g' : rng) :
  balance labels g = OK (l, g') ->
  balance l g' = OK (l, g').
Proof.
  intros Hb.
  destruct (balance_ok labels g) as (l2 & g2 & Hl & _ & Hfg & Hbg & _).
  rewrite Hb in Hl. injection Hl as <- <-.
  apply balance_within_quota; lia.
Qed.

(** X8. With at most RPN_BATCHSIZE = 256 positives,
    [subsample_negative_labels] returns: it leaves
    min(count(0), 256 - count(1)) negatives, turns the others into -1 and
    changes no label that is not 0. *)
Theorem subsample_negative_contract (labels : list Z) (g : rng) :
  count 1 labels <= 256 ->
  exists l g',
    subsample_negative_labels labels g = OK (l, g') /\
    length l = length labels /\
    count 0 l = Nat.min (count 0 labels) (256 - count 1 labels) /\
    count 1 l = count 1 labels /\
    (forall j, nth j labels 0%Z <> 0%Z -> nth j l 0%Z = nth j labels 0%Z) /\
    (forall j, nth j l 0%Z = nth j labels 0%Z \/ nth j l 0%Z = (-1)%Z).
Proof.
  intros H.
  destruct (subsample_negative_ok labels g H)
    as (l & g' & Hl & Hlen & Hbg & Hfg & _ & Hpt).
  exists l, g'. split; [assumption|]. split; [assumption|].
  split; [assumption|]. split; [unfold count; now rewrite Hfg|]. split.
  - intros j Hj. destruct (Hpt j) as [E|[E _]]; [assumption|contradiction].
  - intros j. destruct (Hpt j) as [E|[_ E]]; auto.
Qed.

(** X9. With more than 256 positives and at least one negative,
    [subsample_negative_labels] raises: it asks for more negatives than there
    are, so the [size] updates do not fit the indices it could draw. *)
Theorem subsample_negative_overfull (labels : list Z) (g : rng) :
  256 < count 1 labels -> 0 < count 0 labels ->
  subsample_negative_labels labels g = Error ShapeMismatch.
Proof.
  intros Hfg Hbg. unfold subsample_negative_labels, RPN_BATCHSIZE.
  fold (count 1 labels). unfold count in Hbg.
  set (bg_inds := where_equal labels 0) in *.
  destruct (Z.of_nat (length bg_inds) - (256 - Z.of_nat (count 1 labels)) <=? 0)%Z
    eqn:E; [apply Z.leb_le in E; lia|].
  set (n := Z.to_nat (Z.of_nat (length bg_inds) - (256 - Z.of_nat (count 1 labels)))).
  assert (Hn : length bg_inds < n) by lia.
  pose proof (shuffle_perm bg_inds g) as Hp.
  destruct (shuffle bg_inds g) as [shuffled g']. cbn [fst] in Hp.
  assert (Hlen : length shuffled = length bg_inds)
    by (symmetry; now apply Permutation_length).
  rewrite firstn_all2 by lia.
  assert (Hin : forall i, In i shuffled -> i < length labels).
  { intros i Hi. apply (Permutation_in _ (Permutation_sym Hp)) in Hi.
    apply In_where_equal in Hi. tauto. }
  rewrite (gather_ok labels 0%Z shuffled Hin). cbn [bind].
  unfold add. rewrite !length_map, repeat_length.
  destruct (length shuffled =? n) eqn:E1; [apply Nat.eqb_eq in E1; lia|].
  destruct (length shuffled =? 1) eqn:E2.
  - apply Nat.eqb_eq in E2.
    destruct shuffled as [|i [|? ?]]; try discriminate.
    destruct n as [|[|n']]; try (cbn in Hlen; lia).
    cbn [bind repeat map scatter_add_tensor].
    assert (Hi : i < length labels) by (apply Hin; now left).
    rewrite (nth_error_nth' labels 0%Z Hi). reflexivity.
  - apply Nat.eqb_neq in E2.
    destruct (n =? 1) eqn:E3; [apply Nat.eqb_eq in E3; lia|].
    reflexivity.
Qed.

(** * Further properties of the border filter *)

(** [inside_image] on any 2-D array with four columns or more. *)
Lemma inside_image_rows (boxes : tensor Q) (height width : Q) (rest : list Q)
  (allowed_border : Q) :
  2 <= ndim boxes -> 4 <= dim boxes 1 ->
  inside_image boxes (height :: width :: rest) allowed_border =
  OK (map (fun r => inside_box width height allowed_border (row_box r)) (rows boxes)).
Proof.
  intros Hnd Hc. unfold inside_image, column.
  destruct (ndim boxes <? 2) eqn:E; [apply Nat.ltb_lt in E; lia|].
  repeat match goal with
         | |- context [dim boxes 1 <=? ?j] =>
             let E := fresh in
             destruct (dim boxes 1 <=? j) eqn:E; [apply Nat.leb_le in E; lia|]
         end.
  cbn [bind item nth_error]. f_equal.
  induction (rows boxes) as [|r l IH]; [reflexivity|].
  cbn [map combine]. rewrite IH. reflexivity.
Qed.

Lemma inside_box_monotone (width height b b' : Q) (bx : box) :
  (b <= b')%Q ->
  inside_box width height b bx = true -> inside_box width height b' bx = true.
Proof.
  intros Hb. rewrite !inside_box_spec. intros (H1 & H2 & H3 & H4).
  assert (Hopp : (- b' <= - b)%Q) by now apply Qopp_le_compat.
  repeat split.
  - now apply Qle_trans with (- b)%Q.
  - now apply Qle_trans with (- b)%Q.
  - apply Qlt_le_trans with (b + width)%Q; [assumption|].
    apply Qplus_le_compat; [assumption|apply Qle_refl].
  - apply Qlt_le_trans with (b + height)%Q; [assumption|].
    apply Qplus_le_compat; [assumption|apply Qle_refl].
Qed.

(** X10. [inside_image] reads the height and the width of the metadata and
    nothing else, and a larger border tolerance never excludes a box: a box
    inside for [allowed_border] is inside for every larger tolerance, whatever
    the scale entry is. *)
Theorem inside_image_border_monotone (boxes : tensor Q) (height width : Q)
  (rest rest' : list Q) (b b' : Q) (inds inds' : list bool) :
  ndim boxes = 2 ->
  (b <= b')%Q ->
  inside_image boxes (height :: width :: rest) b = OK inds ->
  inside_image boxes (height :: width :: rest') b' = OK inds' ->
  length inds' = length inds /\
  forall i, nth i inds false = true -> nth i inds' false = true.
Proof.
  intros Hnd Hb H1 H2.
  assert (Hc : 4 <= dim boxes 1).
  { unfold inside_image, column in H1. rewrite Hnd in H1.
    change (2 <? 2) with false in H1.
    destruct (dim boxes 1 <=? 0); [discriminate|]. cbn [bind] in H1.
    destruct (dim boxes 1 <=? 1); [discriminate|]. cbn [bind] in H1.
    destruct (dim boxes 1 <=? 2); [discriminate|]. cbn [bind] in H1.
    destruct (dim boxes 1 <=? 3) eqn:E3; [discriminate|].
    apply Nat.leb_gt in E3. lia. }
  rewrite inside_image_rows in H1, H2 by lia.
  injection H1 as <-. injection H2 as <-.
  split; [now rewrite !length_map|].
  intros i Hi.
  destruct (Nat.lt_ge_cases i (length (rows boxes))) as [Hlt|Hge].
  - rewrite (nth_map_lt _ _ []) in Hi by assumption.
    rewrite (nth_map_lt _ _ []) by assumption.
    now apply (inside_box_monotone width height b b').
  - rewrite nth_overflow in Hi by (now rewrite length_map). discriminate.
Qed.

(** X11. On a 2-D array with at least four columns and a metadata row that
    holds a height and a width, [inside_image] returns one flag per box,
    computed from the first four columns.  It raises when the array has fewer
    than four columns or the metadata fewer than two entries. *)
Theorem inside_image_domain (boxes : tensor Q) (im_info : list Q) (allowed_border : Q) :
  ndim boxes = 2 ->
  (4 <= dim boxes 1 -> 2 <= length im_info ->
   exists inds,
     inside_image boxes im_info allowed_border = OK inds /\
     length inds = dim boxes 0 /\
     forall i, i < dim boxes 0 ->
       nth i inds false =
       inside_box (nth 1 im_info 0%Q) (nth 0 im_info 0%Q) allowed_border
         (row_box (nth i (rows boxes) []))) /\
  (dim boxes 1 < 4 \/ length im_info < 2 ->
   inside_image boxes im_info allowed_border = Error IndexOutOfRange).
Proof.
  intros Hnd. split.
  - intros Hc Hm. destruct im_info as [|height [|width rest]]; try (cbn in Hm; lia).
    rewrite inside_image_rows by lia.
    eexists. split; [reflexivity|]. split; [now rewrite length_map, length_rows|].
    intros i Hi. now rewrite (nth_map_lt _ _ []) by (now rewrite length_rows).
  - intros Hshort. unfold inside_image, column. rewrite Hnd.
    change (2 <? 2) with false.
    destruct (dim boxes 1 <=? 0) eqn:E0; [reflexivity|]. cbn [bind].
    destruct (dim boxes 1 <=? 1) eqn:E1; [reflexivity|]. cbn [bind].
    destruct (dim boxes 1 <=? 2) eqn:E2; [reflexivity|]. cbn [bind].
    destruct (dim boxes 1 <=? 3) eqn:E3; [reflexivity|]. cbn [bind].
    apply Nat.leb_gt in E3.
    destruct Hshort as [Hc|Hm]; [lia|].
    destruct im_info as [|height [|width rest]]; try reflexivity.
    cbn in Hm. lia.
Qed.

(** * Further properties of the layer entry point *)

(** X12. [call] returns exactly on the well-formed inputs.  In particular it
    raises on a grid without anchors: the argmax over the empty anchor axis
    fails, and no all-ignore label array is returned. *)
Theorem call_returns_iff (self : AnchorTarget) (scores : list nat)
  (gt_boxes : tensor Q) (metadata : list (list Q)) (g : rng) :
  ((exists r, call self scores gt_boxes metadata g = OK r) <->
   well_formed self scores gt_boxes metadata = true) /\
  (forall md mrest b M c s0 rr cc srest,
      metadata = md :: mrest ->
      shape gt_boxes = [S b; M; c] ->
      scores = s0 :: rr :: cc :: srest ->
      shift (rr, cc) (stride self) = [] ->
      call self scores gt_boxes metadata g = Error EmptyReduction).
Proof.
  split; [split|].
  - intros [r Hr]. now apply call_returns in Hr.
  - intros Hwf.
    destruct (call_ok self scores gt_boxes metadata g Hwf)
      as (rr & cc & gt & height & width & am & raw & bal & g' & labels & H).
    eexists. apply H.
  - intros md mrest b M c s0 rr cc srest -> Hshape -> Hshift.
    destruct gt_boxes as [sh dat]. cbn [shape] in Hshape. subst sh.
    unfold call. cbn [item nth_error bind index0 shape data shape_at].
    rewrite Hshift. reflexivity.
Qed.

(** X13. The shapes [compute_output_shape] declares agree with what [call]
    returns: labels of rank 2 and targets of rank 3 whose last axis has size
    4, whatever input shape is declared; [compute_mask] gives one entry per
    declared output. *)
Theorem declared_output_shapes (self : AnchorTarget) (scores : list nat)
  (gt_boxes : tensor Q) (metadata : list (list Q)) (g : rng)
  (L : tensor Z) (T : tensor Q) (g' : rng) :
  call self scores gt_boxes metadata g = OK (L, T, g') ->
  forall (input_shape : list (list (option nat))) (inputs : list (list nat))
         (mask : option (list bool)),
    map (fun p => shape_instance (fst p) (snd p))
        (combine [shape L; shape T] (compute_output_shape input_shape)) =
    [true; true] /\
    length (compute_mask inputs mask) = length (compute_output_shape input_shape).
Proof.
  intros Hcall input_shape inputs mask.
  pose proof (call_returns _ _ _ _ _ _ Hcall) as Hwf.
  destruct (call_ok self scores gt_boxes metadata g Hwf)
    as (rr & cc & gt & height & width & am & raw & bal & g1 & labels & H).
  repeat (cbv zeta in H; match type of H with _ /\ _ => destruct H as [_ H] end).
  rewrite Hcall in H. injection H as -> -> _.
  split; reflexivity.
Qed.

Lemma filter_length_le {A : Type} (p q : A -> bool) :
  (forall x, p x = true -> q x = true) ->
  forall l : list A, length (filter p l) <= length (filter q l).
Proof.
  intros Himp. induction l as [|a l IH]; [apply Nat.le_refl|].
  cbn [filter]. destruct (p a) eqn:Ep.
  - rewrite (Himp a Ep). cbn [length]. lia.
  - destruct (q a); cbn [length]; lia.
Qed.

(** Positives and negatives are distinct anchors. *)
Lemma count_sum_le_length (labels : list Z) :
  count 1 labels + count 0 labels <= length labels.
Proof.
  unfold count, where_equal.
  set (s := seq 0 (length labels)).
  set (p := fun i => (nth i labels 0 =? 1)%Z).
  assert (H0 : length (filter (fun i => (nth i labels 0 =? 0)%Z) s) <=
               length (filter (fun i => negb (p i)) s)).
  { apply filter_length_le. intros i Hi. unfold p.
    apply Z.eqb_eq in Hi. rewrite Hi. reflexivity. }
  pose proof (filter_negb_length p s) as Hsum.
  unfold s in Hsum at 3. rewrite length_seq in Hsum. lia.
Qed.

(** X14. On a grid of at most 128 anchors [call] subsamples nothing: it
    returns the labels of the assignment pass with -1 written outside the
    border, and the generator state it was given, so its result does not
    depend on the shuffle. *)
Theorem call_small_grid_draws_nothing (self : AnchorTarget) (scores : list nat)
  (gt_boxes : tensor Q) (metadata : list (list Q)) (g : rng) (rr cc : nat) :
  well_formed self scores gt_boxes metadata = true ->
  shape_at scores 1 = OK rr -> shape_at scores 2 = OK cc ->
  length (shift (rr, cc) (stride self)) <= 128 ->
  exists gt height width am raw L T,
    index0 gt_boxes = OK gt /\
    (exists rest mrest, metadata = (height :: width :: rest) :: mrest) /\
    label_raw gt (boxes_tensor (shift (rr, cc) (stride self))) (negative_overlap self)
      (positive_overlap self) (clobber_positives self) = OK (am, raw) /\
    call self scores gt_boxes metadata g = OK (L, T, g) /\
    forall i, i < length (shift (rr, cc) (stride self)) ->
      nth i (data L) 0%Z =
      if inside_box width height (allowed_border self)
           (nth i (shift (rr, cc) (stride self)) (mkBox 0 0 0 0))
      then nth i raw 0%Z else (-1)%Z.
Proof.
  intros Hwf Hrr Hcc HN.
  destruct (call_ok self scores gt_boxes metadata g Hwf)
    as (rr' & cc' & gt & height & width & am & raw & bal & g' & labels &
        Hrr' & Hcc' & Hgt & Hmd & H).
  rewrite Hrr in Hrr'. injection Hrr' as <-.
  rewrite Hcc in Hcc'. injection Hcc' as <-.
  cbv zeta in H.
  destruct H as (Hraw & Hbal & Hlraw & _ & _ & _ & _ & _ & _ & _ & _ & Hmask & Hcall).
  pose proof (count_sum_le_length raw) as Hsum.
  rewrite (balance_within_quota raw g) in Hbal by lia.
  injection Hbal as <- <-.
  eexists gt, height, width, am, raw, _, _.
  split; [assumption|]. split; [assumption|]. split; [assumption|].
  split; [exact Hcall|]. exact Hmask.
Qed.

(** X15. Without [clobber_positives], and when the assignment pass yields at
    most 128 positives, the best anchor of every ground-truth box is still
    labelled 1 in what [label] returns: the balance sampler then flips no
    positive. *)
Theorem label_keeps_best_anchors (y_true y_pred : tensor Q) (NEG POS : Q) (g : rng)
  (am : list nat) (raw : list Z) :
  label_raw y_true y_pred NEG POS false = OK (am, raw) ->
  count 1 raw <= 128 ->
  exists mo gta l g',
    overlapping y_pred y_true = OK (am, mo, gta) /\
    label y_true y_pred NEG POS false g = OK (am, l, g') /\
    length gta = dim y_true 0 /\
    forall i, In i gta -> nth i l 0%Z = 1%Z.
Proof.
  intros Hraw Hquota.
  pose proof (label_raw_returns _ _ _ _ _ _ Hraw) as (Hp & Ht & HN & HM).
  destruct (label_raw_ok y_true y_pred NEG POS false Hp Ht HN HM)
    as (am' & mo & gta & raw' & Hov & Hraw' & Hlen & Hnth).
  rewrite Hraw in Hraw'. injection Hraw' as <- <-.
  destruct (overlapping_facts y_pred y_true Hp Ht HN HM)
    as (a3 & mo3 & gta3 & Hov3 & _ & _ & Hgta & _ & Hcol).
  rewrite Hov in Hov3. injection Hov3 as <- <- <-.
  destruct (balance_ok raw g) as (l & g' & Hbal & Hlbal & _ & _ & Hsame & _).
  exists mo, gta, l, g'.
  split; [assumption|]. split.
  { unfold label. rewrite Hraw. cbn [bind]. rewrite Hbal. reflexivity. }
  split; [assumption|].
  intros i Hi.
  assert (HiN : i < dim y_pred 0).
  { apply (In_nth _ _ 0) in Hi. destruct Hi as [j [Hj <-]].
    rewrite Hgta in Hj. now apply Hcol. }
  assert (Hone : nth i raw 0%Z = 1%Z).
  { rewrite (Hnth i HiN). cbv zeta.
    apply existsb_eqb_In in Hi. now rewrite Hi, orb_true_r. }
  assert (Hin : In i (where_equal raw 1))
    by (apply In_where_equal; split; [lia|assumption]).
  rewrite <- (Hsame Hquota) in Hin. apply In_where_equal in Hin. tauto.
Qed.

End Layer.

(** * The layer on concrete inputs *)

Lemma shuffle_rev_perm (l : list nat) (g : nat) : Permutation l (fst (shuffle_rev l g)).
Proof. apply Permutation_rev. Qed.

(** The scenario of section 8: a 2 x 2 grid at stride 16 and one ground-truth
    box on the first cell, in a 32 x 32 image.  Anchor 0 is positive with
    target (0, 0, 0, 0); the three other anchors touch the right or the lower
    edge of the image and are ignored. *)
Example call_grid_2x2 :
  call iou_spec shift_2x2 corner_offsets nat shuffle_rev AnchorTarget_default
    [1; 2; 2; 18] (gt_batch [qbox 0 0 16 16]) metadata_32 0 =
  OK (mkTensor [1; 4] [1; -1; -1; -1]%Z,
      mkTensor [1; 4; 4]
        (flat_map box_row
           [qbox 0 0 0 0; qbox (-16) 0 (-16) 0; qbox 0 (-16) 0 (-16);
            qbox (-16) (-16) (-16) (-16)]),
      0).
Proof. vm_compute. reflexivity. Qed.

(** A scatter-add accumulates over repeated indices: without [unique] an
    anchor listed twice would receive its update twice. *)
Example scatter_add_accumulates :
  scatter_add_tensor [-1; 0]%Z [0; 0] [2; 2]%Z = OK [3; 0]%Z.
Proof. reflexivity. Qed.

(** C5. [call] balances the labels of the whole anchor set and only then
    masks the anchors outside the border: the quotas count the anchors outside
    the border too, and the mask can only lower the number of positive and of
    negative labels.  It does lower them: with the crowded anchors the
    sampler keeps its full quota of 128 positives and 98 are left after the
    mask; on the 2 x 2 grid with a box on the last cell one positive and
    three negatives are sampled, and no positive and one negative are left. *)
Theorem balance_runs_before_border_filter :
  (forall (iou : overlap_function) (shift : anchor_generator)
          (bbox_delta : delta_encoder) (rng : Type) (shuffle : shuffle_function rng),
      (forall (l : list nat) (g : rng), Permutation l (fst (shuffle l g))) ->
      forall (self : AnchorTarget) (scores : list nat) (gt_boxes : tensor Q)
             (metadata : list (list Q)) (g : rng),
        well_formed shift self scores gt_boxes metadata = true ->
        exists rr cc gt am raw balanced L T g',
          shape_at scores 1 = OK rr /\ shape_at scores 2 = OK cc /\
          index0 gt_boxes = OK gt /\
          let anchors := shift (rr, cc) (stride self) in
          label_raw iou gt (boxes_tensor anchors) (negative_overlap self)
            (positive_overlap self) (clobber_positives self) = OK (am, raw) /\
          length raw = length anchors /\
          balance rng shuffle raw g = OK (balanced, g') /\
          call iou shift bbox_delta rng shuffle self scores gt_boxes metadata g =
            OK (L, T, g') /\
          (forall i, i < length anchors ->
             nth i (data L) 0%Z = nth i balanced 0%Z \/ nth i (data L) 0%Z = (-1)%Z) /\
          count 1 balanced <= 128 /\
          count 1 balanced + count 0 balanced <= 256 /\
          count 1 (data L) <= count 1 balanced /\
          count 0 (data L) <= count 0 balanced) /\
  (exists am raw balanced L T g',
      label_raw iou_spec (boxes_tensor [qbox 0 0 16 16]) (boxes_tensor crowded_anchors)
        (3 # 10)%Q (7 # 10)%Q false = OK (am, raw) /\
      balance nat shuffle_rev raw 0 = OK (balanced, g') /\
      call iou_spec shift_crowded corner_offsets nat shuffle_rev AnchorTarget_default
        [1; 2; 2; 18] (gt_batch [qbox 0 0 16 16]) metadata_32 0 = OK (L, T, g') /\
      count 1 raw = 130 /\ count 1 balanced = 128 /\ count 1 (data L) = 98) /\
  (exists am raw balanced L T g',
      label_raw iou_spec (boxes_tensor [qbox 16 16 32 32]) (boxes_tensor grid_2x2)
        (3 # 10)%Q (7 # 10)%Q false = OK (am, raw) /\
      balance nat shuffle_rev raw 0 = OK (balanced, g') /\
      call iou_spec shift_2x2 corner_offsets nat shuffle_rev AnchorTarget_default
        [1; 2; 2; 18] (gt_batch [qbox 16 16 32 32]) metadata_32 0 = OK (L, T, g') /\
      count 1 balanced = 1 /\ count 1 (data L) = 0 /\
      count 0 balanced = 3 /\ count 0 (data L) = 1).
Proof.
  split; [|split].
  - intros iou shift bbox_delta rng shuffle Hperm self scores gt_boxes metadata g Hwf.
    destruct (call_masks_balanced iou shift bbox_delta rng shuffle Hperm
                self scores gt_boxes metadata g Hwf)
      as (rr & cc & gt & height & width & am & raw & bal & L & T & g' &
          Hrr & Hcc & Hgt & _ & H).
    cbv zeta in H.
    destruct H as (Hraw & Hlraw & Hbal & Hcall & Hmask & Hfg & Hall & Hc1 & Hc0).
    exists rr, cc, gt, am, raw, bal, L, T, g'.
    split; [assumption|]. split; [assumption|]. split; [assumption|]. cbv zeta.
    split; [assumption|]. split; [assumption|]. split; [assumption|].
    split; [assumption|]. split.
    + intros i Hi. rewrite Hmask by assumption. destruct (inside_box _ _ _ _); auto.
    + auto.
  - eexists _, _, _, _, _, _.
    split; [vm_compute; reflexivity|].
    split; [vm_compute; reflexivity|].
    split; [vm_compute; reflexivity|].
    split; [|split]; vm_compute; reflexivity.
  - eexists _, _, _, _, _, _.
    split; [vm_compute; reflexivity|].
    split; [vm_compute; reflexivity|].
    split; [vm_compute; reflexivity|].
    repeat split; vm_compute; reflexivity.
Qed.

(** C8: the claim fails.  With no ground-truth box and the anchors of the
    2 x 2 grid, [label] and [call] raise instead of returning labels. *)
Lemma label_empty_ground_truth_raises :
  label iou_spec nat shuffle_rev (boxes_tensor []) (boxes_tensor grid_2x2)
    (3 # 10)%Q (7 # 10)%Q false 0 = Error EmptyReduction /\
  call iou_spec shift_2x2 corner_offsets nat shuffle_rev AnchorTarget_default
    [1; 2; 2; 18] (gt_batch []) metadata_32 0 = Error EmptyReduction.
Proof. split; vm_compute; reflexivity. Qed.

(** C9: the claim fails.  A ground-truth array of rank 1 is rejected by the
    bare assert of [overlapping], an error without a message, and anchors of
    rank 1 make [label] fail at the slice [y_pred[:, :1]], before the
    precondition check is reached. *)
Lemma non_2d_failure_is_not_descriptive :
  ~ (exists e,
        overlapping iou_spec (boxes_tensor grid_2x2)
          (mkTensor [4] (box_row (qbox 0 0 16 16))) = Error e /\
        has_message e = true) /\
  overlapping iou_spec (boxes_tensor grid_2x2)
    (mkTensor [4] (box_row (qbox 0 0 16 16))) = Error AssertionError /\
  label_raw iou_spec (boxes_tensor [qbox 0 0 16 16])
    (mkTensor [4] (box_row (qbox 0 0 16 16))) (3 # 10)%Q (7 # 10)%Q false =
  Error SliceError.
Proof.
  split; [|split; reflexivity].
  intros [e [He Hm]]. vm_compute in He. injection He as <-. discriminate.
Qed.

(** * The claims on concrete inputs *)

(** A ground-truth box far from the 2 x 2 grid: every overlap is 0, the
    force-positive pass marks anchor 0, and with [clobber_positives] true the
    background rule, run last, resets it to 0. *)
Lemma label_background_rule_order_witness :
  exists am labels_t,
    label_raw iou_spec (boxes_tensor [qbox 100 100 116 116]) (boxes_tensor grid_2x2)
      (3 # 10)%Q (7 # 10)%Q true = OK (am, labels_t) /\
    nth 0 labels_t 0%Z = 0%Z.
Proof.
  destruct (label_background_rule_order iou_spec
              (boxes_tensor [qbox 100 100 116 116]) (boxes_tensor grid_2x2)
              (3 # 10)%Q (7 # 10)%Q)
    as (am & mo & gta & ones & lf & lt & Hov & Hones & H);
    [reflexivity|reflexivity|cbn; lia|cbn; lia|].
  cbv zeta in H. destruct H as (_ & _ & _ & Ht & Hbg & _).
  exists am, lt. split; [exact Ht|].
  apply Hbg; [cbn; lia|].
  vm_compute in Hov. injection Hov as <- <- <-. reflexivity.
Defined.

Lemma force_positive_marks_every_box_witness :
  exists l,
    force_positive [0] [0; 0; 0; 0]%Z = OK l /\ nth 0 l 0%Z = 1%Z.
Proof.
  destruct (force_positive_marks_every_box iou_spec
              (boxes_tensor [qbox 100 100 116 116]) (boxes_tensor grid_2x2))
    as (am & mo & gta & Hov & Hlen & H);
    [reflexivity|reflexivity|cbn; lia|cbn; lia|].
  vm_compute in Hov. injection Hov as <- <- <-.
  destruct (H [0; 0; 0; 0]%Z) as (l & Hl & _ & Hone); [reflexivity|].
  exists l. split; [exact Hl|].
  apply (Hone 0). cbn. lia.
Defined.

(** Two ground-truth boxes share anchor 0. *)
Lemma force_positive_deduplicates_witness :
  exists l, force_positive [0; 0] [-1; 0]%Z = OK l /\ nth 0 l 0%Z = 1%Z.
Proof.
  destruct (force_positive_deduplicates [0; 0] [-1; 0]%Z) as (_ & _ & l & Hl & _ & H1 & _).
  - intros i [<-|[<-|[]]]; cbn; lia.
  - exists l. split; [exact Hl|]. apply H1. now left.
Defined.

Lemma balance_quotas_witness :
  exists l g',
    balance nat shuffle_rev (repeat 1%Z 130 ++ repeat 0%Z 200) 0 = OK (l, g') /\
    (Z.of_nat (count 1 l) <= 128)%Z /\
    (Z.of_nat (count 1 l + count 0 l) <= 256)%Z.
Proof.
  destruct (balance_quotas nat shuffle_rev shuffle_rev_perm
              (repeat 1%Z 130 ++ repeat 0%Z 200) 0)
    as (Hfg & Hbatch & l1 & g1 & l & g' & _ & _ & Hbal & _ & _ & _ & _ & _ & H1 & H2 & _).
  exists l, g'. split; [exact Hbal|].
  rewrite Hfg in H1. rewrite Hbatch in H2. split; assumption.
Defined.

(** A ground-truth array of rank 1. *)
Lemma overlapping_rejects_other_ranks_witness :
  overlapping iou_spec (boxes_tensor grid_2x2)
    (mkTensor [4] (box_row (qbox 0 0 16 16))) = Error AssertionError.
Proof.
  apply (overlapping_rejects_other_ranks iou_spec shift_2x2 corner_offsets nat
           shuffle_rev (mkTensor [4] (box_row (qbox 0 0 16 16)))
           (boxes_tensor grid_2x2) (3 # 10)%Q (7 # 10)%Q false 0).
  right. cbn. lia.
Defined.

Lemma label_needs_ground_truth_witness :
  label iou_spec nat shuffle_rev (boxes_tensor []) (boxes_tensor grid_2x2)
    (3 # 10)%Q (7 # 10)%Q true 0 = Error EmptyReduction.
Proof.
  apply (label_needs_ground_truth iou_spec nat shuffle_rev shuffle_rev_perm
           (boxes_tensor []) (boxes_tensor grid_2x2) (3 # 10)%Q (7 # 10)%Q true 0);
    reflexivity.
Defined.


Lemma labels_ternary_and_lengths_witness :
  exists L T g',
    call iou_spec shift_2x2 corner_offsets nat shuffle_rev AnchorTarget_default
      [1; 2; 2; 18] (gt_batch [qbox 0 0 16 16]) metadata_32 0 = OK (L, T, g') /\
    shape L = [1; 4] /\ Forall ternary (data L) /\ shape T = [1; 4; 4].
Proof.
  destruct (labels_ternary_and_lengths iou_spec shift_2x2 corner_offsets nat
              shuffle_rev shuffle_rev_perm AnchorTarget_default [1; 2; 2; 18]
              (gt_batch [qbox 0 0 16 16]) metadata_32 0) as [Htotal Hout].
  destruct (Htotal eq_refl) as [[[L T] g'] Hcall].
  destruct (Hout L T g' Hcall)
    as (rr & cc & gt & am & raw & bal & Hrr & Hcc & _ & H).
  cbv zeta in H.
  destruct H as (_ & _ & _ & _ & _ & _ & HsL & _ & HtL & HsT & _).
  injection Hrr as <-. injection Hcc as <-.
  exists L, T, g'. split; [exact Hcall|]. split; [exact HsL|].
  split; [exact HtL|exact HsT].
Defined.

(** The same call with a border tolerance of 100 pixels and a 64 x 64 image. *)
Lemma border_filter_leaves_targets_witness :
  exists L T g' L' T' g2',
    call iou_spec shift_2x2 corner_offsets nat shuffle_rev AnchorTarget_default
      [1; 2; 2; 18] (gt_batch [qbox 0 0 16 16]) metadata_32 0 = OK (L, T, g') /\
    call iou_spec shift_2x2 corner_offsets nat shuffle_rev
      (with_allowed_border AnchorTarget_default 100%Q)
      [1; 2; 2; 18] (gt_batch [qbox 0 0 16 16]) [[64; 64; 1]%Q] 7 = OK (L', T', g2') /\
    data L <> data L' /\ T' = T.
Proof.
  eassert (H1 : call iou_spec shift_2x2 corner_offsets nat shuffle_rev
                  AnchorTarget_default [1; 2; 2; 18] (gt_batch [qbox 0 0 16 16])
                  metadata_32 0 = OK (_, _, _))
    by (vm_compute; reflexivity).
  eassert (H2 : call iou_spec shift_2x2 corner_offsets nat shuffle_rev
                  (with_allowed_border AnchorTarget_default 100%Q)
                  [1; 2; 2; 18] (gt_batch [qbox 0 0 16 16]) [[64; 64; 1]%Q] 7 =
                OK (_, _, _))
    by (vm_compute; reflexivity).
  eexists _, _, _, _, _, _.
  split; [exact H1|]. split; [exact H2|]. split; [discriminate|].
  exact (proj2 (border_filter_leaves_targets iou_spec shift_2x2 corner_offsets nat
                  shuffle_rev shuffle_rev_perm AnchorTarget_default [1; 2; 2; 18]
                  (gt_batch [qbox 0 0 16 16]) metadata_32 0 _ _ _ H1)
               _ _ _ _ _ _ H2).
Defined.

Lemma balance_runs_before_border_filter_witness :
  exists L T g',
    call iou_spec shift_crowded corner_offsets nat shuffle_rev AnchorTarget_default
      [1; 2; 2; 18] (gt_batch [qbox 0 0 16 16]) metadata_32 0 = OK (L, T, g') /\
    count 1 (data L) <= 128.
Proof.
  destruct (proj1 balance_runs_before_border_filter iou_spec shift_crowded
              corner_offsets nat shuffle_rev shuffle_rev_perm AnchorTarget_default
              [1; 2; 2; 18] (gt_batch [qbox 0 0 16 16]) metadata_32 0)
    as (rr & cc & gt & am & raw & bal & L & T & g' & _ & _ & _ & H);
    [reflexivity|].
  cbv zeta in H. destruct H as (_ & _ & _ & Hcall & _ & Hfg & _ & Hle & _).
  exists L, T, g'. split; [exact Hcall|].
  exact (Nat.le_trans _ _ _ Hle Hfg).
Defined.

(** * The further properties on concrete inputs *)

Lemma overlapping_anchor_matches_witness :
  exists am mo gta,
    overlapping iou_spec (boxes_tensor grid_2x2) (boxes_tensor [qbox 0 0 16 16]) =
      OK (am, mo, gta) /\
    nth 0 am 0 < 1 /\ length mo = 4.
Proof.
  destruct (overlapping_anchor_matches iou_spec (boxes_tensor grid_2x2)
              (boxes_tensor [qbox 0 0 16 16]))
    as (am & mo & gta & Hov & _ & Hmo & H);
    [reflexivity|reflexivity|cbn; lia|cbn; lia|].
  exists am, mo, gta. split; [exact Hov|]. split; [|exact Hmo].
  apply (H 0). cbn. lia.
Defined.

(** No anchor at all. *)
Lemma overlapping_empty_axis_witness :
  overlapping iou_spec (boxes_tensor []) (boxes_tensor [qbox 0 0 16 16]) =
  Error EmptyReduction.
Proof.
  apply (proj1 (overlapping_empty_axis iou_spec (boxes_tensor [])
                  (boxes_tensor [qbox 0 0 16 16]) eq_refl eq_refl)).
  left. reflexivity.
Defined.

Lemma raw_label_cases_witness :
  exists am labels,
    label_raw iou_spec (boxes_tensor [qbox 0 0 16 16]) (boxes_tensor grid_2x2)
      (3 # 10)%Q (7 # 10)%Q false = OK (am, labels) /\
    nth 0 labels 0%Z = 1%Z.
Proof.
  destruct (raw_label_cases iou_spec (boxes_tensor [qbox 0 0 16 16])
              (boxes_tensor grid_2x2) (3 # 10)%Q (7 # 10)%Q false)
    as (am & mo & gta & labels & Hov & Hraw & _ & H);
    [reflexivity|reflexivity|cbn; lia|cbn; lia|].
  exists am, labels. split; [exact Hraw|].
  vm_compute in Hov. injection Hov as <- <- <-.
  apply (proj1 (H 0 ltac:(cbn; lia))). split.
  - right. now left.
  - discriminate.
Defined.

(** The far ground-truth box: anchor 0 is its best anchor although its
    overlap is 0, below negative_overlap. *)
Lemma clobber_decides_conflicts_only_witness :
  exists am labels_f labels_t,
    label_raw iou_spec (boxes_tensor [qbox 100 100 116 116]) (boxes_tensor grid_2x2)
      (3 # 10)%Q (7 # 10)%Q false = OK (am, labels_f) /\
    label_raw iou_spec (boxes_tensor [qbox 100 100 116 116]) (boxes_tensor grid_2x2)
      (3 # 10)%Q (7 # 10)%Q true = OK (am, labels_t) /\
    nth 0 labels_f 0%Z = 1%Z /\ nth 0 labels_t 0%Z = 0%Z.
Proof.
  destruct (clobber_decides_conflicts_only iou_spec
              (boxes_tensor [qbox 100 100 116 116]) (boxes_tensor grid_2x2)
              (3 # 10)%Q (7 # 10)%Q)
    as (am & mo & gta & lf & lt & Hov & Hf & Ht & H);
    [reflexivity|reflexivity|cbn; lia|cbn; lia|].
  exists am, lf, lt. split; [exact Hf|]. split; [exact Ht|].
  vm_compute in Hov. injection Hov as <- <- <-.
  destruct (H 0 ltac:(cbn; lia)) as [Hiff Hval].
  apply Hval, Hiff. split; [reflexivity|]. right. now left.
Defined.

Lemma label_matches_ignore_thresholds_witness :
  exists am labels g1 am' labels' g1',
    label iou_spec nat shuffle_rev (boxes_tensor [qbox 0 0 16 16])
      (boxes_tensor grid_2x2) (3 # 10)%Q (7 # 10)%Q false 0 = OK (am, labels, g1) /\
    label iou_spec nat shuffle_rev (boxes_tensor [qbox 0 0 16 16])
      (boxes_tensor grid_2x2) (1 # 2)%Q (1 # 2)%Q true 5 = OK (am', labels', g1') /\
    am' = am.
Proof.
  eassert (H1 : label iou_spec nat shuffle_rev (boxes_tensor [qbox 0 0 16 16])
                  (boxes_tensor grid_2x2) (3 # 10)%Q (7 # 10)%Q false 0 =
                OK (_, _, _)) by (vm_compute; reflexivity).
  eassert (H2 : label iou_spec nat shuffle_rev (boxes_tensor [qbox 0 0 16 16])
                  (boxes_tensor grid_2x2) (1 # 2)%Q (1 # 2)%Q true 5 =
                OK (_, _, _)) by (vm_compute; reflexivity).
  eexists _, _, _, _, _, _. split; [exact H1|]. split; [exact H2|].
  exact (proj1 (label_matches_ignore_thresholds iou_spec nat shuffle_rev
                  _ _ _ _ _ _ _ _ _ _ _ _ _ _ _ _ H1 H2)).
Defined.

Lemma balance_identity_iff_witness :
  balance nat shuffle_rev [1; 0; -1; 0]%Z 3 = OK ([1; 0; -1; 0]%Z, 3).
Proof.
  apply (proj2 (balance_identity_iff nat shuffle_rev shuffle_rev_perm
                  [1; 0; -1; 0]%Z 3)); vm_compute; lia.
Defined.

Lemma balance_idempotent_witness :
  exists l g',
    balance nat shuffle_rev (repeat 1%Z 130 ++ repeat 0%Z 200) 0 = OK (l, g') /\
    balance nat shuffle_rev l g' = OK (l, g').
Proof.
  eassert (H : balance nat shuffle_rev (repeat 1%Z 130 ++ repeat 0%Z 200) 0 =
               OK (_, _)) by (vm_compute; reflexivity).
  eexists _, _. split; [exact H|].
  exact (balance_idempotent nat shuffle_rev shuffle_rev_perm _ _ _ _ H).
Defined.

Lemma subsample_negative_contract_witness :
  exists l g',
    subsample_negative_labels nat shuffle_rev (repeat 0%Z 300) 0 = OK (l, g') /\
    count 0 l = 256.
Proof.
  destruct (subsample_negative_contract nat shuffle_rev shuffle_rev_perm
              (repeat 0%Z 300) 0)
    as (l & g' & Hl & _ & Hc & _); [vm_compute; lia|].
  exists l, g'. split; [exact Hl|]. rewrite Hc. reflexivity.
Defined.

(** 257 positives and one negative. *)
Lemma subsample_negative_overfull_witness :
  subsample_negative_labels nat shuffle_rev (repeat 1%Z 257 ++ [0%Z]) 0 =
  Error ShapeMismatch.
Proof.
  apply (subsample_negative_overfull nat shuffle_rev shuffle_rev_perm);
    vm_compute; lia.
Defined.

Lemma inside_image_border_monotone_witness :
  exists inds inds',
    inside_image (boxes_tensor grid_2x2) [32; 32; 1]%Q 0%Q = OK inds /\
    inside_image (boxes_tensor grid_2x2) [32; 32; 2]%Q 1%Q = OK inds' /\
    nth 0 inds' false = true.
Proof.
  eassert (H1 : inside_image (boxes_tensor grid_2x2) [32; 32; 1]%Q 0%Q = OK _)
    by (vm_compute; reflexivity).
  eassert (H2 : inside_image (boxes_tensor grid_2x2) [32; 32; 2]%Q 1%Q = OK _)
    by (vm_compute; reflexivity).
  eexists _, _. split; [exact H1|]. split; [exact H2|].
  apply (proj2 (inside_image_border_monotone (boxes_tensor grid_2x2) _ _ _ _
                  0%Q 1%Q _ _ eq_refl ltac:(discriminate) H1 H2) 0).
  reflexivity.
Defined.

Lemma inside_image_domain_witness :
  exists inds,
    inside_image (boxes_tensor grid_2x2) [32; 32; 1]%Q 0%Q = OK inds /\
    length inds = 4.
Proof.
  destruct (proj1 (inside_image_domain (boxes_tensor grid_2x2) [32; 32; 1]%Q 0%Q
                     eq_refl))
    as (inds & H & Hlen & _); [cbn; lia|cbn; lia|].
  exists inds. split; [exact H|exact Hlen].
Defined.

Lemma call_returns_iff_witness :
  exists r,
    call iou_spec shift_2x2 corner_offsets nat shuffle_rev AnchorTarget_default
      [1; 2; 2; 18] (gt_batch [qbox 0 0 16 16]) metadata_32 0 = OK r.
Proof.
  apply (proj1 (call_returns_iff iou_spec shift_2x2 corner_offsets nat shuffle_rev
                  shuffle_rev_perm AnchorTarget_default [1; 2; 2; 18]
                  (gt_batch [qbox 0 0 16 16]) metadata_32 0)).
  reflexivity.
Defined.

Lemma declared_output_shapes_witness :
  exists L T g',
    call iou_spec shift_2x2 corner_offsets nat shuffle_rev AnchorTarget_default
      [1; 2; 2; 18] (gt_batch [qbox 0 0 16 16]) metadata_32 0 = OK (L, T, g') /\
    shape_instance (shape L) [None; None] = true /\
    shape_instance (shape T) [None; None; Some 4] = true.
Proof.
  eassert (H : call iou_spec shift_2x2 corner_offsets nat shuffle_rev
                 AnchorTarget_default [1; 2; 2; 18] (gt_batch [qbox 0 0 16 16])
                 metadata_32 0 = OK (_, _, _)) by (vm_compute; reflexivity).
  eexists _, _, _. split; [exact H|].
  pose proof (proj1 (declared_output_shapes iou_spec shift_2x2 corner_offsets nat
                       shuffle_rev shuffle_rev_perm _ _ _ _ _ _ _ _ H
                       [] [] None)) as Hs.
  split.
  - exact (f_equal (fun l => nth 0 l false) Hs).
  - exact (f_equal (fun l => nth 1 l false) Hs).
Defined.

Lemma call_small_grid_draws_nothing_witness :
  exists L T,
    call iou_spec shift_2x2 corner_offsets nat shuffle_rev AnchorTarget_default
      [1; 2; 2; 18] (gt_batch [qbox 0 0 16 16]) metadata_32 9 = OK (L, T, 9).
Proof.
  destruct (call_small_grid_draws_nothing iou_spec shift_2x2 corner_offsets nat
              shuffle_rev shuffle_rev_perm AnchorTarget_default [1; 2; 2; 18]
              (gt_batch [qbox 0 0 16 16]) metadata_32 9 2 2)
    as (gt & height & width & am & raw & L & T & _ & _ & _ & Hcall & _);
    [reflexivity|reflexivity|reflexivity|cbn; lia|].
  exists L, T. exact Hcall.
Defined.

Lemma label_keeps_best_anchors_witness :
  exists am l g',
    label iou_spec nat shuffle_rev (boxes_tensor [qbox 100 100 116 116])
      (boxes_tensor grid_2x2) (3 # 10)%Q (7 # 10)%Q false 0 = OK (am, l, g') /\
    nth 0 l 0%Z = 1%Z.
Proof.
  eassert (Hraw : label_raw iou_spec (boxes_tensor [qbox 100 100 116 116])
                    (boxes_tensor grid_2x2) (3 # 10)%Q (7 # 10)%Q false =
                  OK (_, _)) by (vm_compute; reflexivity).
  destruct (label_keeps_best_anchors iou_spec nat shuffle_rev shuffle_rev_perm
              _ _ _ _ 0 _ _ Hraw)
    as (mo & gta & l & g' & Hov & Hl & _ & H); [vm_compute; lia|].
  eexists _, l, g'. split; [exact Hl|].
  vm_compute in Hov. injection Hov as <- <-.
  apply H. now left.
Defined.
